(** * NoteX: section splitting and adaptive summary lengths

    A shallow embedding of [src/main.py]: the section splitter and the
    length budget of [summarize_by_sections], the dictionary it fills,
    the session context derived from it, and the identifier extraction
    of [get_youtube_transcript]; then the other extractors,
    [answer_question] and the page script that calls them.

    Python values are modelled as follows.
    - [str] is a sequence of Unicode code points: [pystr := list N].
    - [int] is [Z]; [float] is IEEE binary64, taken from [SpecFloat]
      with [prec = 53] and [emax = 1024].
    - [dict] is an association list in insertion order, updated in place
      when the key is already present.
    - The summarization and transcript capabilities are functions
      returning an [outcome]: a value, or a raised exception carrying
      its [str(e)]. *)

From Stdlib Require Import ZArith NArith PArith List Bool Lia FinFun Sorted.
From Stdlib Require Import Strings.String Strings.Ascii.
From Stdlib Require Import Numbers.DecimalString Numbers.DecimalNat.
From Stdlib Require Import Floats.SpecFloat Floats.PrimFloat Floats.FloatOps.
Import ListNotations.

(** ** Python strings *)

Module PyStr.

Definition char := N.
Definition pystr := list char.

(** A literal of the source, written as an ASCII string. *)
Fixpoint of_string (s : string) : pystr :=
  match s with
  | EmptyString => []
  | String a s' => N_of_ascii a :: of_string s'
  end.

Definition in_range (lo hi c : N) : bool := (lo <=? c)%N && (c <=? hi)%N.

(** [Py_UNICODE_ISSPACE]: the code points for which [str.isspace]
    holds; [str.strip], [str.split] without argument and the regex
    class [\s] on [str] patterns all use it. *)
Definition is_space (c : char) : bool :=
  in_range 9 13 c || in_range 28 32 c || (c =? 133)%N || (c =? 160)%N
  || (c =? 5760)%N || in_range 8192 8202 c || (c =? 8232)%N
  || (c =? 8233)%N || (c =? 8239)%N || (c =? 8287)%N || (c =? 12288)%N.

(** First code point of every run of ten decimal digits (general
    category Nd, Unicode 14.0.0). *)
Definition decimal_zeros : list N :=
  [ 48; 1632; 1776; 1984; 2406; 2534; 2662; 2790; 2918; 3046; 3174;
    3302; 3430; 3558; 3664; 3792; 3872; 4160; 4240; 6112; 6160; 6470;
    6608; 6784; 6800; 6992; 7088; 7232; 7248; 42528; 43216; 43264;
    43472; 43504; 43600; 44016; 65296; 66720; 68912; 69734; 69872;
    69942; 70096; 70384; 70736; 70864; 71248; 71360; 71472; 71904;
    72016; 72784; 73040; 73120; 92768; 92864; 93008;
    120782; 120792; 120802; 120812; 120822;
    123200; 123632; 125264; 130032 ]%N.

(** [Py_UNICODE_ISDECIMAL]: the regex class [\d] on [str] patterns. *)
Definition is_digit (c : char) : bool :=
  existsb (fun z => in_range z (z + 9) c) decimal_zeros.

Fixpoint eqb (s t : pystr) : bool :=
  match s, t with
  | [], [] => true
  | a :: s', b :: t' => (a =? b)%N && eqb s' t'
  | _, _ => false
  end.

(** [s.startswith(p)]. *)
Fixpoint startswith (p s : pystr) : bool :=
  match p, s with
  | [], _ => true
  | a :: p', b :: s' => (a =? b)%N && startswith p' s'
  | _ :: _, [] => false
  end.

(** [p in s]. *)
Fixpoint contains (p s : pystr) : bool :=
  startswith p s ||
  match s with
  | [] => false
  | _ :: s' => contains p s'
  end.

Fixpoint drop_space (s : pystr) : pystr :=
  match s with
  | [] => []
  | c :: s' => if is_space c then drop_space s' else s
  end.

Definition lstrip (s : pystr) : pystr := drop_space s.
Definition rstrip (s : pystr) : pystr := rev (drop_space (rev s)).

(** [s.strip()]. *)
Definition strip (s : pystr) : pystr := rstrip (lstrip s).

(** [s.split()]: maximal runs of non-whitespace code points.  [cur]
    is the word being read, most recent code point first. *)
Fixpoint split_words (cur s : pystr) : list pystr :=
  match s with
  | [] => match cur with [] => [] | _ => [rev cur] end
  | c :: s' =>
      if is_space c
      then match cur with
           | [] => split_words [] s'
           | _ => rev cur :: split_words [] s'
           end
      else split_words (c :: cur) s'
  end.

Definition split (s : pystr) : list pystr := split_words [] s.

(** [s.split(sep)] for a non-empty [sep]: cut at every occurrence of
    [sep], found from the left without overlap.  [skip] counts the
    code points of the separator still to be passed over. *)
Fixpoint split_at (sep : pystr) (skip : nat) (cur s : pystr) : list pystr :=
  match s with
  | [] => [rev cur]
  | c :: s' =>
      match skip with
      | S k => split_at sep k cur s'
      | O =>
          if startswith sep s
          then rev cur :: split_at sep (List.length sep - 1) [] s'
          else split_at sep O (c :: cur) s'
      end
  end.

Definition split_sep (sep s : pystr) : list pystr := split_at sep O [] s.

(** [sep.join(parts)]. *)
Fixpoint join (sep : pystr) (parts : list pystr) : pystr :=
  match parts with
  | [] => []
  | [p] => p
  | p :: ps => p ++ sep ++ join sep ps
  end.

(** [s[:n]]. *)
Definition slice_to (n : nat) (s : pystr) : pystr := firstn n s.

(** [len(x)]. *)
Definition len {A} (l : list A) : Z := Z.of_nat (List.length l).

(** [str(n)] for a non-negative integer. *)
Definition str_of_nat (n : nat) : pystr :=
  of_string (NilEmpty.string_of_uint (Nat.to_uint n)).

End PyStr.

Import PyStr.

(** ** Python floats *)

Module PyFloat.

Local Open Scope Z_scope.

Definition float := spec_float.

Definition prec : Z := 53.
Definition emax : Z := 1024.

(** [float(n)]: the nearest binary64, ties to even. *)
Definition of_int (n : Z) : float := binary_normalize prec emax n 0 false.

Definition mul (x y : float) : float := SFmul prec emax x y.

(** The literals [0.5] and [0.6]: the binary64 nearest to each. *)
Definition half : float := S754_finite false 4503599627370496 (-53).
Definition six_tenths : float := S754_finite false 5404319552844595 (-53).

(** [int(x)]: truncation toward zero.  Python raises on infinities
    and NaN; neither arises from the products formed here, and the
    model returns [0] for them. *)
Definition to_int (x : float) : Z :=
  match x with
  | S754_finite s m e =>
      let a := match e with
               | Z0 => Zpos m
               | Zpos p => Zpos m * 2 ^ Zpos p
               | Zneg p => Zpos m / 2 ^ Zpos p
               end in
      if s then - a else a
  | _ => 0
  end.

End PyFloat.

Import PyFloat.

(** ** Regular expressions, as far as the section pattern needs them *)

Module Regex.

Inductive regex : Type :=
| Eps
| Chr (c : char)
| Cls (p : char -> bool)
| Seq (r1 r2 : regex)
| Alt (r1 r2 : regex)
| Plus (r : regex)
| Ahead (r : regex).

(** A literal word of the pattern. *)
Fixpoint lit (w : pystr) : regex :=
  match w with
  | [] => Eps
  | c :: w' => Seq (Chr c) (lit w')
  end.

Section Repeat.

Variable step : pystr -> (pystr -> option pystr) -> option pystr.
Variable k : pystr -> option pystr.

(** One or more rounds of [step], as many as possible first: after a
    round, up to [n] further rounds are tried before [k] is. *)
Fixpoint repeat_loop (n : nat) (s : pystr) : option pystr :=
  step s (fun s1 =>
    match match n with
          | O => None
          | S n' => repeat_loop n' s1
          end with
    | Some rest => Some rest
    | None => k s1
    end).

End Repeat.

(** Backtracking matcher in continuation-passing style: [exec r s k]
    matches [r] at the start of [s] and hands the rest of the text to
    [k]; alternatives are tried in the order of the [re] module (left
    branch first, longest repetition first) and the first that makes
    [k] succeed wins.  A repetition runs at most [length s + 1] times,
    which is all a body that consumes text can use. *)
Fixpoint exec (r : regex) (s : pystr) (k : pystr -> option pystr)
  : option pystr :=
  match r with
  | Eps => k s
  | Chr c =>
      match s with
      | a :: s' => if (a =? c)%N then k s' else None
      | [] => None
      end
  | Cls p =>
      match s with
      | a :: s' => if p a then k s' else None
      | [] => None
      end
  | Seq r1 r2 => exec r1 s (fun s1 => exec r2 s1 k)
  | Alt r1 r2 =>
      match exec r1 s k with
      | Some rest => Some rest
      | None => exec r2 s k
      end
  | Plus r1 => repeat_loop (exec r1) k (List.length s) s
  | Ahead r1 =>
      match exec r1 s Some with
      | Some _ => k s
      | None => None
      end
  end.

(** Length of the match of [r] at the start of [s], if there is one. *)
Definition match_at (r : regex) (s : pystr) : option nat :=
  match exec r s Some with
  | Some rest => Some (List.length s - List.length rest)
  | None => None
  end.

(** [re.split(r, s)] for a pattern without groups: the text between
    successive matches, searched from the left, each search resuming
    where the previous match ended.  [skip] counts the code points of
    the current match still to be passed over.  Only matches that
    consume text cut; the pattern of this program always consumes a
    newline. *)
Fixpoint split_scan (r : regex) (skip : nat) (cur s : pystr)
  : list pystr :=
  match s with
  | [] => [rev cur]
  | c :: s' =>
      match skip with
      | S k => split_scan r k cur s'
      | O =>
          match match_at r s with
          | Some (S n) => rev cur :: split_scan r n [] s'
          | _ => split_scan r O (c :: cur) s'
          end
      end
  end.

Definition re_split (r : regex) (s : pystr) : list pystr :=
  split_scan r O [] s.

End Regex.

Import Regex.

(** ** The program *)

Definition newline : char := 10%N.
Definition full_stop : char := 46%N.

Definition digit : regex := Cls is_digit.
Definition space : regex := Cls is_space.

(** The three headings of the lookahead:
    [\d+\.\s], [Chapter\s+\d+] and [Section\s+\d+]. *)
Definition heading : regex :=
  Alt (Seq (Plus digit) (Seq (Chr full_stop) space))
      (Alt (Seq (lit (of_string "Chapter")) (Seq (Plus space) (Plus digit)))
           (Seq (lit (of_string "Section")) (Seq (Plus space) (Plus digit)))).

(** [r'\n(?=\d+\.\s|Chapter\s+\d+|Section\s+\d+)']. *)
Definition section_pattern : regex := Seq (Chr newline) (Ahead heading).

(** Whether the lookahead succeeds on the text [s]. *)
Definition heading_ahead (s : pystr) : bool :=
  match exec heading s Some with
  | Some _ => true
  | None => false
  end.

(** [sections = re.split(section_pattern, text)]. *)
Definition split_sections (text : pystr) : list pystr :=
  re_split section_pattern text.

(** What a call to an external capability does: it returns a value, or
    raises an [Exception] whose [str(e)] is [msg]. *)
Inductive outcome (A : Type) : Type :=
| Returned (a : A)
| Raised (msg : pystr).
Arguments Returned {A} a.
Arguments Raised {A} msg.

(** A [dict] from [str] to [str], in insertion order. *)
Definition dict := list (pystr * pystr).

Fixpoint dict_set (d : dict) (k v : pystr) : dict :=
  match d with
  | [] => [(k, v)]
  | (k', v') :: d' =>
      if PyStr.eqb k' k then (k', v) :: d' else (k', v') :: dict_set d' k v
  end.

Fixpoint dict_get (d : dict) (k : pystr) : option pystr :=
  match d with
  | [] => None
  | (k', v') :: d' => if PyStr.eqb k' k then Some v' else dict_get d' k
  end.

Definition dict_keys (d : dict) : list pystr := map fst d.
Definition dict_values (d : dict) : list pystr := map snd d.

Local Open Scope Z_scope.

(** [max_len = min(150, max(13, int(word_count * 0.5)))]. *)
Definition max_len_of (word_count : Z) : Z :=
  Z.min 150 (Z.max 13 (to_int (mul (of_int word_count) half))).

(** [min_len = max(10, int(max_len * 0.6))]. *)
Definition min_len_of (max_len : Z) : Z :=
  Z.max 10 (to_int (mul (of_int max_len) six_tenths)).

(** [adjusted_max = min(max_len, len(short_text.split()))]. *)
Definition adjusted_max_of (max_len : Z) (short_text : pystr) : Z :=
  Z.min max_len (len (PyStr.split short_text)).

(** [adjusted_min = min(min_len, adjusted_max - 1) if adjusted_max > 1 else 1]. *)
Definition adjusted_min_of (min_len adjusted_max : Z) : Z :=
  if adjusted_max >? 1 then Z.min min_len (adjusted_max - 1) else 1.

(** The arguments of one call [summarizer(short_text,
    max_length=adjusted_max, min_length=adjusted_min, do_sample=False)]. *)
Record request : Type := {
  req_text : pystr;
  req_max_length : Z;
  req_min_length : Z
}.

(** The call made for a section whose stripped text is [sec] and which
    has more than twenty words. *)
Definition request_of (sec : pystr) : request :=
  let word_count := len (PyStr.split sec) in
  let short_text := slice_to 1000 sec in
  let max_len := max_len_of word_count in
  let min_len := min_len_of max_len in
  let adjusted_max := adjusted_max_of max_len short_text in
  let adjusted_min := adjusted_min_of min_len adjusted_max in
  {| req_text := short_text;
     req_max_length := adjusted_max;
     req_min_length := adjusted_min |}.

(** [f"Section {i+1}"]. *)
Definition label (i : nat) : pystr :=
  of_string "Section " ++ str_of_nat (i + 1).

Definition too_short : pystr := of_string "Section too short to summarize.".

(** [f"Error: {str(e)}"]. *)
Definition error_text (msg : pystr) : pystr := of_string "Error: " ++ msg.

(** The state of the loop: the dictionary being filled, and the calls
    made to the capability so far, each with the index of the section
    it was made for. *)
Record run : Type := {
  summaries : dict;
  invocations : list (nat * request)
}.

Section Summarize.

(** The summarization capability, [summary[0]['summary_text']]
    included: the text obtained, or the exception raised on the way. *)
Variable summarizer : request -> outcome pystr.

(** The body of the loop for [i, sec]. *)
Definition summarize_section (i : nat) (sec : pystr) (st : run) : run :=
  let sec := strip sec in
  let word_count := len (PyStr.split sec) in
  if word_count >? 20 then
    let rq := request_of sec in
    let st' := {| summaries := summaries st;
                  invocations := invocations st ++ [(i, rq)] |} in
    match summarizer rq with
    | Returned summary_text =>
        {| summaries := dict_set (summaries st') (label i) summary_text;
           invocations := invocations st' |}
    | Raised e =>
        {| summaries := dict_set (summaries st') (label i) (error_text e);
           invocations := invocations st' |}
    end
  else
    {| summaries := dict_set (summaries st) (label i) too_short;
       invocations := invocations st |}.

(** [for i, sec in enumerate(sections)], from index [i] on. *)
Fixpoint summarize_loop (i : nat) (sections : list pystr) (st : run) : run :=
  match sections with
  | [] => st
  | sec :: rest => summarize_loop (S i) rest (summarize_section i sec st)
  end.

(** One run of [summarize_by_sections], with the calls it made. *)
Definition run_sections (text : pystr) : run :=
  summarize_loop O (split_sections text)
                 {| summaries := []; invocations := [] |}.

Definition summarize_by_sections (text : pystr) : dict :=
  summaries (run_sections text).

(** [st.session_state['summary'] = " ".join(section_summaries.values())]. *)
Definition session_summary (text : pystr) : pystr :=
  join (of_string " ") (dict_values (summarize_by_sections text)).

End Summarize.

(** One entry of a transcript: a text with its timing. *)
Record fragment : Type := {
  text : pystr;
  start : float;
  duration : float
}.

(** [url.split("v=")[-1] if "youtube.com" in url else url.split("/")[-1]]. *)
Definition video_id_of (url : pystr) : pystr :=
  if contains (of_string "youtube.com") url
  then last (split_sep (of_string "v=") url) []
  else last (split_sep (of_string "/") url) [].

Section Transcript.

(** [YouTubeTranscriptApi.get_transcript]. *)
Variable get_transcript : pystr -> outcome (list fragment).

Definition get_youtube_transcript (url : pystr) : pystr :=
  let video_id := video_id_of url in
  match get_transcript video_id with
  | Returned transcript => join (of_string " ") (map text transcript)
  | Raised e => of_string "Error retrieving transcript: " ++ e
  end.

End Transcript.

(** The value recorded for a section, as the body of the loop decides it. *)
Definition recorded (summarizer : request -> outcome pystr) (sec : pystr)
  : pystr :=
  let sec := strip sec in
  if len (PyStr.split sec) >? 20 then
    match summarizer (request_of sec) with
    | Returned summary_text => summary_text
    | Raised e => error_text e
    end
  else too_short.

(** The calls made for the sections [sections], numbered from [i] on:
    one for each section of more than twenty words. *)
Fixpoint section_requests (i : nat) (sections : list pystr)
  : list (nat * request) :=
  match sections with
  | [] => []
  | sec :: rest =>
      (if len (PyStr.split (strip sec)) >? 20
       then [(i, request_of (strip sec))]
       else [])
      ++ section_requests (S i) rest
  end.

(** Where section [i] starts in the text, when one code point separates
    consecutive sections. *)
Fixpoint section_offset (sections : list pystr) (i : nat) : nat :=
  match i, sections with
  | S i', sec :: rest => S (List.length sec) + section_offset rest i'
  | _, _ => O
  end.

(** [s[start:start+n]]. *)
Definition substring (start n : nat) (s : pystr) : pystr :=
  firstn n (skipn start s).

(** ** The specification's wording, for comparison *)

(** Arithmetic rounding of the fraction [num / den] to the nearest
    integer, halves upward. *)
Definition round_nearest (num den : Z) : Z := (2 * num + den) / (2 * den).

Definition clamp (lower upper x : Z) : Z := Z.min upper (Z.max lower x).

(** [clamp(round(wordCount * 0.5), lower=13, upper=150)]. *)
Definition spec_max_len (word_count : Z) : Z :=
  clamp 13 150 (round_nearest word_count 2).

(** [max(10, round(maxLen * 0.6))]. *)
Definition spec_min_len (max_len : Z) : Z :=
  Z.max 10 (round_nearest (3 * max_len) 5).

(** An integer: one or more decimal digits. *)
Definition is_integer (ds : pystr) : Prop :=
  ds <> [] /\ Forall (fun c => is_digit c = true) ds.

(** One or more whitespace code points. *)
Definition is_blank (ws : pystr) : Prop :=
  ws <> [] /\ Forall (fun c => is_space c = true) ws.

(** A text that begins with one of the three headings: an integer, a
    period and a whitespace; the word Chapter, whitespace and an integer;
    the word Section, whitespace and an integer. *)
Inductive heading_line : pystr -> Prop :=
| heading_numbered ds w rest :
    is_integer ds -> is_space w = true ->
    heading_line (ds ++ full_stop :: w :: rest)
| heading_chapter ws ds rest :
    is_blank ws -> is_integer ds ->
    heading_line (of_string "Chapter" ++ ws ++ ds ++ rest)
| heading_section ws ds rest :
    is_blank ws -> is_integer ds ->
    heading_line (of_string "Section" ++ ws ++ ds ++ rest).

(** [rest] is the text from the start of one of its lines on: the whole
    text, or what follows one of its newlines. *)
Definition line_start (text rest : pystr) : Prop :=
  rest = text \/ exists before, text = before ++ newline :: rest.

(** The texts that follow the newlines of [s], in order. *)
Fixpoint after_newlines (s : pystr) : list pystr :=
  match s with
  | [] => []
  | c :: s' =>
      (if (c =? newline)%N then [s'] else []) ++ after_newlines s'
  end.

(** No line of [text] makes the lookahead succeed. *)
Definition heading_free (text : pystr) : bool :=
  forallb (fun rest => negb (heading_ahead rest))
          (text :: after_newlines text).

(** ** The other extractors *)

(** Truth value of a [str] in a condition: it is not empty. *)
Definition truthy (s : pystr) : bool :=
  match s with
  | [] => false
  | _ :: _ => true
  end.

(** [extract_text_from_pdf], given what [page.extract_text()] returns
    for the pages of the document in order ([None] for a page without
    text): [text += page_text] for every page whose text is true. *)
Definition extract_text_from_pdf (pages : list (option pystr)) : pystr :=
  fold_left
    (fun text page_text =>
       match page_text with
       | Some t => if truthy t then text ++ t else text
       | None => text
       end)
    pages [].

(** [extract_text_from_docx], given [para.text] for the paragraphs of
    the document in order. *)
Definition extract_text_from_docx (paragraphs : list pystr) : pystr :=
  join [newline] paragraphs.

Section WebPage.

(** [requests.get], the parser and [find_all('p')] together: the
    [get_text()] of the paragraph elements of the page in order, or the
    exception raised on the way. *)
Variable fetch_paragraphs : pystr -> outcome (list pystr).

Definition extract_text_from_url (url : pystr) : pystr :=
  match fetch_paragraphs url with
  | Returned paragraphs =>
      join [newline] (filter (fun p => truthy (strip p)) paragraphs)
  | Raised e => of_string "Error: " ++ e
  end.

End WebPage.

Section Answer.

(** [qa_pipeline(question=..., context=...)['answer']]. *)
Variable qa_pipeline : pystr -> pystr -> outcome pystr.

Definition answer_question (context question : pystr) : pystr :=
  match qa_pipeline question context with
  | Returned answer => answer
  | Raised e => of_string "Error: " ++ e
  end.

End Answer.

(** ** The page script *)

(** The calls that write to the page.  The style sheet, the header and
    the footer are constant markup and are left out, as are the labels
    of the widgets and the spinner. *)
Inductive st_call : Type :=
| st_success (body : pystr)
| st_error (body : pystr)
| st_warning (body : pystr)
| st_info (body : pystr)
| st_markdown (body : pystr)
| st_subheader (body : pystr)
| st_expander_write (title body : pystr).

(** What the widgets return in one run of the script: an uploaded file
    is given by what its parser returns or raises. *)
Record widgets : Type := {
  uploaded_pdf : option (outcome (list (option pystr)));
  uploaded_docx : option (outcome (list pystr));
  youtube_link : pystr;
  website_url : pystr;
  summarize_clicked : bool;
  question : pystr;
  answer_clicked : bool
}.

(** The state of one run: the variable [text], the exception that
    stopped the run if one did, [st.session_state['summary']] if it is
    set, what was written to the page, and the calls made to the two
    models. *)
Record page_run : Type := {
  text_loaded : pystr;
  stopped : option pystr;
  session : option pystr;
  page : list st_call;
  summarizer_calls : list (nat * request);
  qa_calls : list (pystr * pystr)
}.

Definition check_mark : pystr := [9989%N].
Definition blue_diamond : pystr := [128313%N].

(** [text[:1500] + "..." if len(text) > 1500 else text]. *)
Definition preview (text : pystr) : pystr :=
  if len text >? 1500 then slice_to 1500 text ++ of_string "..." else text.

Section Script.

Variable summarizer : request -> outcome pystr.
Variable qa_pipeline : pystr -> pystr -> outcome pystr.
Variable get_transcript : pystr -> outcome (list fragment).
Variable fetch_paragraphs : pystr -> outcome (list pystr).

Variable w : widgets.

(** An exception that nothing catches ends the run. *)
Definition unless_stopped (f : page_run -> page_run) (r : page_run)
  : page_run :=
  match stopped r with
  | Some _ => r
  | None => f r
  end.

Definition set_text (r : page_run) (t : pystr) (message : pystr)
  : page_run :=
  {| text_loaded := t;
     stopped := stopped r;
     session := session r;
     page := page r ++ [st_success (check_mark ++ message)];
     summarizer_calls := summarizer_calls r;
     qa_calls := qa_calls r |}.

Definition stop_with (r : page_run) (e : pystr) : page_run :=
  {| text_loaded := text_loaded r;
     stopped := Some e;
     session := session r;
     page := page r;
     summarizer_calls := summarizer_calls r;
     qa_calls := qa_calls r |}.

Definition write (r : page_run) (calls : list st_call) : page_run :=
  {| text_loaded := text_loaded r;
     stopped := stopped r;
     session := session r;
     page := page r ++ calls;
     summarizer_calls := summarizer_calls r;
     qa_calls := qa_calls r |}.

(** [with tab1:]. *)
Definition tab_pdf (r : page_run) : page_run :=
  match uploaded_pdf w with
  | None => r
  | Some (Raised e) => stop_with r e
  | Some (Returned pages) =>
      set_text r (extract_text_from_pdf pages)
               (of_string " PDF content extracted!")
  end.

(** [with tab2:]. *)
Definition tab_docx (r : page_run) : page_run :=
  match uploaded_docx w with
  | None => r
  | Some (Raised e) => stop_with r e
  | Some (Returned paragraphs) =>
      set_text r (extract_text_from_docx paragraphs)
               (of_string " DOCX content extracted!")
  end.

(** [with tab3:]. *)
Definition tab_youtube (r : page_run) : page_run :=
  if truthy (youtube_link w)
  then set_text r (get_youtube_transcript get_transcript (youtube_link w))
                (of_string " YouTube transcript extracted!")
  else r.

(** [with tab4:]. *)
Definition tab_website (r : page_run) : page_run :=
  if truthy (website_url w)
  then set_text r (extract_text_from_url fetch_paragraphs (website_url w))
                (of_string " Website article extracted!")
  else r.

(** [if text: with st.expander("View Extracted Text"): ...]. *)
Definition view_text (r : page_run) : page_run :=
  if truthy (text_loaded r)
  then write r [st_expander_write (of_string "View Extracted Text")
                                  (preview (text_loaded r))]
  else r.

(** [for title, summary in section_summaries.items(): ...]. *)
Definition show_summaries (d : dict) : list st_call :=
  flat_map (fun entry =>
              [st_markdown (of_string "#### " ++ blue_diamond
                            ++ of_string " " ++ fst entry);
               st_info (snd entry)])
           d.

(** [if st.button("Summarize"): ...]. *)
Definition summarize_button (r : page_run) : page_run :=
  if summarize_clicked w then
    if truthy (text_loaded r) then
      let result := run_sections summarizer (text_loaded r) in
      let section_summaries := summaries result in
      {| text_loaded := text_loaded r;
         stopped := stopped r;
         session :=
           Some (join (of_string " ") (dict_values section_summaries));
         page := page r
                 ++ [st_subheader (of_string "Section-wise Summary")]
                 ++ show_summaries section_summaries;
         summarizer_calls := summarizer_calls r ++ invocations result;
         qa_calls := qa_calls r |}
    else
      write r [st_error (of_string "Please upload or paste something first!")]
  else r.

(** [if 'summary' in st.session_state: ...]. *)
Definition ask_a_doubt (r : page_run) : page_run :=
  match session r with
  | None => r
  | Some context =>
      let r1 := write r [st_subheader (of_string "Ask a Doubt")] in
      if answer_clicked w then
        if truthy (question w) then
          let answer := answer_question qa_pipeline context (question w) in
          {| text_loaded := text_loaded r1;
             stopped := stopped r1;
             session := session r1;
             page := page r1 ++ [st_success (of_string "Answer: " ++ answer)];
             summarizer_calls := summarizer_calls r1;
             qa_calls := qa_calls r1 ++ [(question w, context)] |}
        else
          write r1 [st_warning (of_string "Please type your question.")]
      else r1
  end.

(** The four tabs, from [text = ""] on, in a session whose summary
    slot holds [before]. *)
Definition load_inputs (before : option pystr) : page_run :=
  unless_stopped tab_website
    (unless_stopped tab_youtube
      (unless_stopped tab_docx
        (tab_pdf
           {| text_loaded := [];
              stopped := None;
              session := before;
              page := [];
              summarizer_calls := [];
              qa_calls := [] |}))).

(** One run of the script. *)
Definition script (before : option pystr) : page_run :=
  unless_stopped ask_a_doubt
    (unless_stopped summarize_button
      (unless_stopped view_text (load_inputs before))).

End Script.

(** ** Sample inputs *)

(** Scenario A of the specification. *)
Definition scenario_a : pystr :=
  of_string "Chapter 1" ++ [newline] ++ of_string "Short.".

Definition cache_section_1 : pystr :=
  of_string "Section 1 introduces the memory hierarchy of a modern computer and explains why small fast caches sit between the processor and the much slower main memory.".

Definition cache_section_2 : pystr :=
  of_string "Section 2 describes how a cache line is chosen for eviction when the cache is full and compares the least recently used policy with random replacement.".

Definition cache_section_3 : pystr :=
  of_string "Section 3 closes with measurements taken on three machines and shows that the miss rate falls quickly as the size of the cache grows beyond one megabyte.".

(** Three sections of more than twenty words each. *)
Definition cache_notes : pystr :=
  cache_section_1 ++ [newline] ++ cache_section_2 ++ [newline]
  ++ cache_section_3.

(** Two lines, neither a heading. *)
Definition plain_note : pystr :=
  of_string "Caches are small." ++ [newline] ++ of_string "Memory is large.".

(** A section of twenty-one words whose first word alone fills the
    first 1000 code points. *)
Definition long_word_section : pystr :=
  repeat 97%N 1000 ++ List.concat (repeat (of_string " b") 20).

(** A capability that answers every call. *)
Definition steady (rq : request) : outcome pystr :=
  Returned (of_string "A summary.").

(** A capability that fails on the text of the second section. *)
Definition failing_on_2 (rq : request) : outcome pystr :=
  if startswith (of_string "Section 2") (req_text rq)
  then Raised (of_string "index out of range in self")
  else Returned (of_string "A summary.").

(** A link to a video with a start time. *)
Definition timed_link : pystr :=
  of_string "https://www.youtube.com/watch?v=dQw4w9WgXcQ&t=42s".

(** A short link and a watch link to the same video. *)
Definition short_link : pystr := of_string "https://youtu.be/dQw4w9WgXcQ".

Definition watch_link : pystr :=
  of_string "https://www.youtube.com/watch?v=dQw4w9WgXcQ".

(** A document of three paragraphs, the second one empty. *)
Definition memo_paragraphs : list pystr :=
  [of_string "Chapter 1"; []; of_string "Caches are small."].

(** A page of three paragraphs, the second one blank. *)
Definition blog_page (url : pystr) : outcome (list pystr) :=
  Returned [of_string "Caches are small."; of_string "   ";
            of_string "Memory is large."].

(** A transcript service without captions for any video. *)
Definition no_captions (video_id : pystr) : outcome (list fragment) :=
  Raised (of_string "Subtitles are disabled for this video").

(** A question-answering model with one answer. *)
Definition short_answer (question context : pystr) : outcome pystr :=
  Returned (of_string "small").

(** A click on Summarize with no input at all. *)
Definition idle_click : widgets :=
  {| uploaded_pdf := None; uploaded_docx := None;
     youtube_link := []; website_url := [];
     summarize_clicked := true; question := []; answer_clicked := false |}.

(** A click on Summarize with a link to an article. *)
Definition article_click : widgets :=
  {| uploaded_pdf := None; uploaded_docx := None;
     youtube_link := [];
     website_url := of_string "https://example.org/caches";
     summarize_clicked := true; question := []; answer_clicked := false |}.

(** A click on Summarize with a link to a video. *)
Definition video_click : widgets :=
  {| uploaded_pdf := None; uploaded_docx := None;
     youtube_link := watch_link; website_url := [];
     summarize_clicked := true; question := []; answer_clicked := false |}.

(** A file that the PDF reader rejects. *)
Definition broken_upload : widgets :=
  {| uploaded_pdf := Some (Raised (of_string "No /Root object!"));
     uploaded_docx := None;
     youtube_link := []; website_url := [];
     summarize_clicked := true; question := []; answer_clicked := false |}.

(** A click on Get Answer with a question. *)
Definition question_click : widgets :=
  {| uploaded_pdf := None; uploaded_docx := None;
     youtube_link := []; website_url := [];
     summarize_clicked := false;
     question := of_string "What is small?"; answer_clicked := true |}.

(** A page whose paragraphs are all blank. *)
Definition blank_page (url : pystr) : outcome (list pystr) :=
  Returned [of_string "   "; []].

(** * Properties *)

(** ** Strings *)

Lemma eqb_eq (s t : pystr) : PyStr.eqb s t = true <-> s = t.
Proof.
  revert t; induction s as [|a s IH]; intros [|b t]; simpl;
    try (split; congruence).
  rewrite andb_true_iff, N.eqb_eq, IH.
  split; [intros [-> ->]; reflexivity | intros E; inversion E; auto].
Qed.

Lemma eqb_refl (s : pystr) : PyStr.eqb s s = true.
Proof. apply eqb_eq; reflexivity. Qed.

Lemma eqb_neq (s t : pystr) : s <> t -> PyStr.eqb s t = false.
Proof.
  intros H; destruct (PyStr.eqb s t) eqn:E; [|reflexivity].
  apply eqb_eq in E; contradiction.
Qed.

Lemma join_cons (sep p : pystr) (ps : list pystr) :
  ps <> [] -> join sep (p :: ps) = p ++ sep ++ join sep ps.
Proof. destruct ps; [congruence | reflexivity]. Qed.

(** A word in progress is always delivered. *)
Lemma split_words_pending (c : char) (cur s : pystr) :
  split_words (c :: cur) s <> [].
Proof.
  revert c cur; induction s as [|a s IH]; intros c cur; simpl.
  - discriminate.
  - destruct (is_space a); [discriminate | apply IH].
Qed.

Lemma split_leading_word (c : char) (s : pystr) :
  is_space c = false -> (1 <= len (PyStr.split (c :: s)))%Z.
Proof.
  intros Hc; unfold PyStr.split, len; simpl; rewrite Hc.
  pose proof (split_words_pending c [] s) as H.
  destruct (split_words [c] s); [congruence | simpl; lia].
Qed.

Lemma drop_space_head (s : pystr) :
  match drop_space s with
  | [] => True
  | c :: _ => is_space c = false
  end.
Proof.
  induction s as [|a s IH]; simpl; [exact I|].
  destruct (is_space a) eqn:E; [exact IH | exact E].
Qed.

(** Dropping trailing whitespace keeps a first code point that is not
    whitespace. *)
Lemma rstrip_keeps_head (c : char) (s : pystr) :
  is_space c = false -> exists s', rstrip (c :: s) = c :: s'.
Proof.
  intros Hc; unfold rstrip.
  assert (G : forall l, exists s', rev (drop_space (l ++ [c])) = c :: s').
  { induction l as [|a l IH]; simpl.
    - rewrite Hc; exists []; reflexivity.
    - destruct (is_space a); [exact IH|].
      exists (rev l ++ [a]).
      simpl; rewrite rev_app_distr; reflexivity. }
  simpl; apply G.
Qed.

Lemma strip_head (s : pystr) :
  match strip s with
  | [] => True
  | c :: _ => is_space c = false
  end.
Proof.
  unfold strip, lstrip.
  pose proof (drop_space_head s) as H.
  destruct (drop_space s) as [|c t]; [exact I|].
  destruct (rstrip_keeps_head c t H) as [s' ->]; exact H.
Qed.

(** The truncated text of a section with at least one word has at least
    one word. *)
Lemma short_text_has_word (sec : pystr) :
  (0 < len (PyStr.split (strip sec)))%Z ->
  (1 <= len (PyStr.split (slice_to 1000 (strip sec))))%Z.
Proof.
  pose proof (strip_head sec) as H.
  destruct (strip sec) as [|c t]; [unfold len; simpl; lia|].
  intros _; unfold slice_to; simpl; apply split_leading_word; exact H.
Qed.

(** ** The matcher *)

Section RepeatClass.

Variable p : char -> bool.
Variable step : pystr -> (pystr -> option pystr) -> option pystr.
Variable k : pystr -> option pystr.

Hypothesis step_class : forall s k0,
  step s k0 = match s with
              | [] => None
              | a :: s' => if p a then k0 s' else None
              end.

Lemma repeat_loop_zero s :
  repeat_loop step k O s = step s k.
Proof. simpl; rewrite !step_class; reflexivity. Qed.

Lemma repeat_loop_succ n s :
  repeat_loop step k (S n) s =
  step s (fun s1 => match repeat_loop step k n s1 with
                    | Some rest => Some rest
                    | None => k s1
                    end).
Proof. reflexivity. Qed.

(** A repetition of a class that succeeds has read a non-empty run of
    the class, and the continuation accepted what follows. *)
Lemma repeat_class_sound (n : nat) :
  forall s out,
    repeat_loop step k n s = Some out ->
    exists w rest,
      s = w ++ rest /\ w <> [] /\ Forall (fun c => p c = true) w /\
      k rest = Some out.
Proof.
  induction n as [|n IH]; intros s out.
  - rewrite repeat_loop_zero, step_class.
    destruct s as [|c s]; [discriminate|].
    destruct (p c) eqn:Hc; [|discriminate].
    intros H; exists [c], s; repeat split; auto; discriminate.
  - rewrite repeat_loop_succ, step_class.
    destruct s as [|c s]; [discriminate|].
    destruct (p c) eqn:Hc; [|discriminate].
    destruct (repeat_loop step k n s) as [o|] eqn:E.
    + intros H; injection H as ->.
      destruct (IH s out E) as (w & rest & -> & _ & Hw & Hk).
      exists (c :: w), rest; repeat split; auto; discriminate.
    + intros H; exists [c], s; repeat split; auto; discriminate.
Qed.

(** A non-empty run of the class followed by a text the continuation
    accepts is matched, given one round per code point of the run. *)
Lemma repeat_class_complete (w : pystr) :
  forall n rest,
    w <> [] -> Forall (fun c => p c = true) w ->
    (List.length w <= S n)%nat -> k rest <> None ->
    repeat_loop step k n (w ++ rest) <> None.
Proof.
  induction w as [|c w IH]; intros n rest Hne Hall Hn Hk; [congruence|].
  inversion Hall as [|? ? Hc Hw]; subst.
  destruct n as [|n].
  - rewrite repeat_loop_zero, step_class; simpl; rewrite Hc.
    destruct w; [exact Hk | simpl in Hn; lia].
  - rewrite repeat_loop_succ, step_class; simpl; rewrite Hc.
    destruct w as [|d w].
    + simpl; destruct (repeat_loop step k n rest);
        [discriminate | exact Hk].
    + specialize (IH n rest).
      destruct (repeat_loop step k n ((d :: w) ++ rest));
        [discriminate|].
      exfalso; apply IH; auto; [discriminate | simpl in *; lia].
Qed.

End RepeatClass.

Lemma exec_plus_class_sound p k s out :
  exec (Plus (Cls p)) s k = Some out ->
  exists w rest,
    s = w ++ rest /\ w <> [] /\ Forall (fun c => p c = true) w /\
    k rest = Some out.
Proof. apply repeat_class_sound; reflexivity. Qed.

Lemma exec_plus_class_complete p k w rest :
  w <> [] -> Forall (fun c => p c = true) w -> k rest <> None ->
  exec (Plus (Cls p)) (w ++ rest) k <> None.
Proof.
  intros Hne Hall Hk.
  apply (repeat_class_complete p); auto.
  rewrite length_app; lia.
Qed.

Lemma exec_lit_sound w : forall s k out,
  exec (lit w) s k = Some out ->
  exists rest, s = w ++ rest /\ k rest = Some out.
Proof.
  induction w as [|c w IH]; intros s k out; simpl.
  - intros H; exists s; auto.
  - destruct s as [|a s]; [discriminate|].
    destruct (N.eqb_spec a c) as [->|]; [|discriminate].
    intros H; destruct (IH _ _ _ H) as (rest & -> & Hk).
    exists rest; auto.
Qed.

Lemma exec_lit_complete w : forall rest k,
  exec (lit w) (w ++ rest) k = k rest.
Proof.
  induction w as [|c w IH]; intros rest k; simpl; [reflexivity|].
  rewrite N.eqb_refl; apply IH.
Qed.

(** The lookahead succeeds exactly on the texts that begin with a
    heading in the sense of the specification. *)
Lemma heading_ahead_line (s : pystr) :
  heading_ahead s = true -> heading_line s.
Proof.
  unfold heading_ahead, heading.
  destruct (exec _ s Some) as [out|] eqn:E; [intros _ | discriminate].
  cbn [exec] in E.
  match type of E with
  | match ?a with _ => _ end = _ => destruct a as [o|] eqn:E1
  end.
  - apply (exec_plus_class_sound is_digit) in E1.
    destruct E1 as (ds & rest & -> & Hne & Hds & Hk).
    destruct rest as [|c [|w rest]]; simpl in Hk; try discriminate.
    + destruct (c =? full_stop)%N; discriminate.
    + destruct (N.eqb_spec c full_stop) as [->|]; [|discriminate].
      destruct (is_space w) eqn:Hw; [|discriminate].
      apply heading_numbered; [split|]; auto.
  - match type of E with
    | match ?a with _ => _ end = _ => destruct a as [o|] eqn:E2
    end.
    + apply exec_lit_sound in E2; destruct E2 as (r1 & -> & E2).
      apply (exec_plus_class_sound is_space) in E2.
      destruct E2 as (ws & r2 & -> & Hne & Hws & E2).
      apply (exec_plus_class_sound is_digit) in E2.
      destruct E2 as (ds & r3 & -> & Hne' & Hds & _).
      apply heading_chapter; split; auto.
    + apply exec_lit_sound in E; destruct E as (r1 & -> & E).
      apply (exec_plus_class_sound is_space) in E.
      destruct E as (ws & r2 & -> & Hne & Hws & E).
      apply (exec_plus_class_sound is_digit) in E.
      destruct E as (ds & r3 & -> & Hne' & Hds & _).
      apply heading_section; split; auto.
Qed.

Lemma worded_heading_matches word ws ds rest :
  is_blank ws -> is_integer ds ->
  exec (Seq (lit word) (Seq (Plus space) (Plus digit)))
       (word ++ ws ++ ds ++ rest) Some <> None.
Proof.
  intros [Hws Aws] [Hds Ads].
  cbn [exec]; rewrite exec_lit_complete.
  apply (exec_plus_class_complete is_space); auto.
  apply (exec_plus_class_complete is_digit); auto; discriminate.
Qed.

Lemma heading_line_ahead (s : pystr) :
  heading_line s -> heading_ahead s = true.
Proof.
  intros H; unfold heading_ahead.
  destruct (exec heading s Some) as [out|] eqn:E; [reflexivity|exfalso].
  unfold heading in E; cbn [exec] in E.
  match type of E with
  | match ?a with _ => _ end = _ => destruct a as [o|] eqn:E1
  end; [discriminate|].
  match type of E with
  | match ?a with _ => _ end = _ => destruct a as [o|] eqn:E2
  end; [discriminate|].
  destruct H as [ds w rest [Hne Hds] Hw | ws ds rest Hws Hds
                | ws ds rest Hws Hds].
  - revert E1; apply (exec_plus_class_complete is_digit); auto.
    simpl; rewrite ?N.eqb_refl, Hw; discriminate.
  - revert E2; apply (worded_heading_matches (of_string "Chapter")); auto.
  - revert E; apply (worded_heading_matches (of_string "Section")); auto.
Qed.

Lemma heading_ahead_iff (s : pystr) :
  heading_ahead s = true <-> heading_line s.
Proof. split; [apply heading_ahead_line | apply heading_line_ahead]. Qed.

(** ** The splitter *)

(** The pattern matches where a newline is followed by a heading, and
    the match is the newline alone. *)
Lemma match_at_section_pattern (c : char) (s : pystr) :
  match_at section_pattern (c :: s) =
  if (c =? newline)%N && heading_ahead s then Some 1%nat else None.
Proof.
  unfold match_at, section_pattern, heading_ahead; cbn [exec].
  destruct (c =? newline)%N; [|reflexivity].
  destruct (exec heading s Some); [|reflexivity].
  cbn [andb List.length]; f_equal; lia.
Qed.

Lemma split_scan_step (cur : pystr) (c : char) (s : pystr) :
  split_scan section_pattern O cur (c :: s) =
  if (c =? newline)%N && heading_ahead s
  then rev cur :: split_scan section_pattern O [] s
  else split_scan section_pattern O (c :: cur) s.
Proof.
  cbn [split_scan]; rewrite match_at_section_pattern.
  destruct ((c =? newline)%N && heading_ahead s); reflexivity.
Qed.

Lemma split_scan_nonempty (s cur : pystr) :
  split_scan section_pattern O cur s <> [].
Proof.
  revert cur; induction s as [|c s IH]; intros cur; [discriminate|].
  rewrite split_scan_step.
  destruct ((c =? newline)%N && heading_ahead s); [discriminate | apply IH].
Qed.

(** Putting the newlines back between the pieces gives the text back. *)
Lemma join_split_scan (s cur : pystr) :
  join [newline] (split_scan section_pattern O cur s) = rev cur ++ s.
Proof.
  revert cur; induction s as [|c s IH]; intros cur.
  - simpl; rewrite app_nil_r; reflexivity.
  - rewrite split_scan_step.
    destruct (c =? newline)%N eqn:Hc; cbn [andb].
    + destruct (heading_ahead s).
      * rewrite join_cons by apply split_scan_nonempty.
        rewrite IH; apply N.eqb_eq in Hc; subst c; reflexivity.
      * rewrite IH; simpl; rewrite <- app_assoc; reflexivity.
    + rewrite IH; simpl; rewrite <- app_assoc; reflexivity.
Qed.

(** Without a heading after a newline nothing is cut. *)
Lemma split_scan_no_heading (s : pystr) : forall cur,
  (forall before rest, s = before ++ newline :: rest ->
                       heading_ahead rest = false) ->
  split_scan section_pattern O cur s = [rev cur ++ s].
Proof.
  induction s as [|c s IH]; intros cur H.
  - simpl; rewrite app_nil_r; reflexivity.
  - rewrite split_scan_step.
    destruct (N.eqb_spec c newline) as [->|Hc]; cbn [andb].
    + rewrite (H [] s eq_refl).
      rewrite IH; [simpl; rewrite <- app_assoc; reflexivity|].
      intros before rest ->; apply (H (newline :: before) rest); reflexivity.
    + rewrite IH; [simpl; rewrite <- app_assoc; reflexivity|].
      intros before rest ->; apply (H (c :: before) rest); reflexivity.
Qed.

(** In a text joined by a one-code-point separator every part sits at
    its offset. *)
Lemma join_substring (c : char) (parts : list pystr) : forall i sec,
  nth_error parts i = Some sec ->
  substring (section_offset parts i) (List.length sec) (join [c] parts) = sec.
Proof.
  unfold substring.
  induction parts as [|p ps IH]; intros [|i] sec H; simpl in H;
    try discriminate.
  - injection H as ->.
    destruct ps; simpl.
    + apply firstn_all.
    + rewrite firstn_app, firstn_all, Nat.sub_diag; simpl.
      apply app_nil_r.
  - assert (ps <> []) as Hps by (destruct ps; [destruct i|]; discriminate).
    rewrite join_cons by exact Hps.
    cbn [section_offset].
    replace (p ++ [c] ++ join [c] ps) with ((p ++ [c]) ++ join [c] ps)
      by (rewrite <- app_assoc; reflexivity).
    rewrite skipn_app, skipn_all2 by (rewrite length_app; simpl; lia).
    replace (S (List.length p) + section_offset ps i
             - List.length (p ++ [c]))%nat
      with (section_offset ps i)
      by (rewrite length_app; cbn [List.length]; lia).
    apply IH; exact H.
Qed.

(** C3: for every text, joining the sections with one newline between
    consecutive sections gives the text back exactly, and every section
    is the substring of the text at its offset: the sections are
    contiguous, in document order, and only the newlines at the cuts are
    left out. *)
Theorem sections_reconstruct_text (text : pystr) :
  join [newline] (split_sections text) = text /\
  forall i sec,
    nth_error (split_sections text) i = Some sec ->
    substring (section_offset (split_sections text) i) (List.length sec) text
    = sec.
Proof.
  assert (J : join [newline] (split_sections text) = text)
    by apply (join_split_scan text []).
  split; [exact J|].
  intros i sec H.
  rewrite <- J at 2.
  apply join_substring; exact H.
Qed.

(** C8: a text in which no line starts with a heading is returned as the
    only section. *)
Theorem no_heading_single_section (text : pystr) :
  (forall rest, line_start text rest -> ~ heading_line rest) ->
  split_sections text = [text].
Proof.
  intros H.
  apply (split_scan_no_heading text []).
  intros before rest E.
  destruct (heading_ahead rest) eqn:A; [exfalso | reflexivity].
  apply (H rest); [right; exists before; exact E|].
  apply heading_ahead_line; exact A.
Qed.

(** ** Labels *)

Lemma of_string_inj (s t : string) : of_string s = of_string t -> s = t.
Proof.
  revert t; induction s as [|a s IH]; intros [|b t]; simpl;
    try discriminate; [reflexivity|].
  intros H; injection H as Hab Hst.
  f_equal; [|apply IH; exact Hst].
  rewrite <- (ascii_N_embedding a), <- (ascii_N_embedding b), Hab.
  reflexivity.
Qed.

Lemma str_of_nat_inj (n m : nat) : str_of_nat n = str_of_nat m -> n = m.
Proof.
  unfold str_of_nat; intros H.
  apply of_string_inj in H.
  apply Unsigned.to_uint_inj.
  assert (E : Some (Nat.to_uint n) = Some (Nat.to_uint m))
    by (rewrite <- !NilEmpty.usu, H; reflexivity).
  injection E; auto.
Qed.

Lemma label_inj (i j : nat) : label i = label j -> i = j.
Proof.
  unfold label; intros H.
  apply app_inv_head, str_of_nat_inj in H; lia.
Qed.

Lemma label_eqb (i j : nat) : PyStr.eqb (label i) (label j) = (i =? j)%nat.
Proof.
  destruct (Nat.eqb_spec i j) as [->|N]; [apply eqb_refl|].
  apply eqb_neq; intros H; apply N, label_inj, H.
Qed.

(** ** The dictionary *)

Lemma dict_set_fresh (d : dict) (k v : pystr) :
  dict_get d k = None -> dict_set d k v = d ++ [(k, v)].
Proof.
  induction d as [|[k' v'] d IH]; simpl; [reflexivity|].
  destruct (PyStr.eqb k' k); [discriminate|].
  intros H; rewrite IH by exact H; reflexivity.
Qed.

Lemma dict_get_app (d e : dict) (k : pystr) :
  dict_get (d ++ e) k =
  match dict_get d k with
  | Some v => Some v
  | None => dict_get e k
  end.
Proof.
  induction d as [|[k' v'] d IH]; simpl; [reflexivity|].
  destruct (PyStr.eqb k' k); [reflexivity | exact IH].
Qed.

(** Looking a label up in a dictionary that lists consecutive labels. *)
Lemma dict_get_labels (vals : list pystr) : forall i j,
  (i <= j)%nat ->
  dict_get (combine (map label (seq i (List.length vals))) vals) (label j)
  = nth_error vals (j - i).
Proof.
  induction vals as [|v vals IH]; intros i j Hij;
    cbn [List.length seq map combine dict_get].
  - destruct (j - i)%nat; reflexivity.
  - rewrite label_eqb.
    destruct (Nat.eqb_spec i j) as [->|N].
    + rewrite Nat.sub_diag; reflexivity.
    + rewrite IH by lia.
      replace (j - i)%nat with (S (j - S i)) by lia; reflexivity.
Qed.

Lemma dict_keys_labels (vals : list pystr) : forall n,
  dict_keys (combine (map label (seq n (List.length vals))) vals) =
  map label (seq n (List.length vals)).
Proof.
  induction vals as [|v vals IH]; intros n; simpl; [reflexivity|].
  f_equal; apply IH.
Qed.

Lemma dict_values_labels (vals : list pystr) : forall n,
  dict_values (combine (map label (seq n (List.length vals))) vals) = vals.
Proof.
  induction vals as [|v vals IH]; intros n; simpl; [reflexivity|].
  f_equal; apply IH.
Qed.

(** ** One run of the loop *)

Section RunFacts.

Variable summarizer : request -> outcome pystr.

Lemma summarize_section_summaries i sec st :
  summaries (summarize_section summarizer i sec st) =
  dict_set (summaries st) (label i) (recorded summarizer sec).
Proof.
  unfold summarize_section, recorded.
  destruct (len (PyStr.split (strip sec)) >? 20); [|reflexivity].
  destruct (summarizer (request_of (strip sec))); reflexivity.
Qed.

Lemma summarize_section_invocations i sec st :
  invocations (summarize_section summarizer i sec st) =
  invocations st ++
  (if len (PyStr.split (strip sec)) >? 20
   then [(i, request_of (strip sec))]
   else []).
Proof.
  unfold summarize_section.
  destruct (len (PyStr.split (strip sec)) >? 20);
    [|simpl; rewrite app_nil_r; reflexivity].
  destruct (summarizer (request_of (strip sec))); reflexivity.
Qed.

(** The loop appends one entry per section, under consecutive labels,
    as long as those labels are not yet in the dictionary. *)
Lemma summarize_loop_summaries sections : forall i st,
  (forall j, (i <= j)%nat -> dict_get (summaries st) (label j) = None) ->
  summaries (summarize_loop summarizer i sections st) =
  summaries st ++
  combine (map label (seq i (List.length sections)))
          (map (recorded summarizer) sections).
Proof.
  induction sections as [|sec rest IH]; intros i st Hfresh; simpl.
  - rewrite app_nil_r; reflexivity.
  - assert (E : summaries (summarize_section summarizer i sec st) =
                summaries st ++ [(label i, recorded summarizer sec)]).
    { rewrite summarize_section_summaries.
      apply dict_set_fresh, Hfresh; lia. }
    rewrite IH.
    + rewrite E, <- app_assoc; reflexivity.
    + intros j Hj; rewrite E, dict_get_app, Hfresh by lia.
      cbn [dict_get]; rewrite label_eqb.
      destruct (Nat.eqb_spec i j); [lia | reflexivity].
Qed.

Lemma summarize_loop_invocations sections : forall i st,
  invocations (summarize_loop summarizer i sections st) =
  invocations st ++ section_requests i sections.
Proof.
  induction sections as [|sec rest IH]; intros i st; simpl.
  - rewrite app_nil_r; reflexivity.
  - rewrite IH, summarize_section_invocations, <- app_assoc; reflexivity.
Qed.

(** The dictionary returned: the labels in order, each with the value
    recorded for its section. *)
Lemma summarize_by_sections_eq text :
  summarize_by_sections summarizer text =
  combine (map label (seq 0 (List.length (split_sections text))))
          (map (recorded summarizer) (split_sections text)).
Proof.
  unfold summarize_by_sections, run_sections.
  rewrite summarize_loop_summaries by reflexivity.
  reflexivity.
Qed.

Lemma run_sections_invocations text :
  invocations (run_sections summarizer text) =
  section_requests 0 (split_sections text).
Proof.
  unfold run_sections; rewrite summarize_loop_invocations; reflexivity.
Qed.

Lemma summarize_by_sections_get text i :
  dict_get (summarize_by_sections summarizer text) (label i) =
  option_map (recorded summarizer) (nth_error (split_sections text) i).
Proof.
  rewrite summarize_by_sections_eq.
  rewrite <- (length_map (recorded summarizer)).
  rewrite dict_get_labels by lia.
  rewrite Nat.sub_0_r; apply nth_error_map.
Qed.

End RunFacts.

Lemma section_requests_in sections : forall i j rq,
  In (j, rq) (section_requests i sections) ->
  (i <= j)%nat /\
  exists sec,
    nth_error sections (j - i) = Some sec /\
    len (PyStr.split (strip sec)) > 20 /\
    rq = request_of (strip sec).
Proof.
  induction sections as [|sec rest IH]; intros i j rq; simpl; [tauto|].
  rewrite in_app_iff; intros [H|H].
  - destruct (len (PyStr.split (strip sec)) >? 20) eqn:W; [|destruct H].
    destruct H as [H|[]]; injection H as <- <-.
    split; [lia|]; exists sec; rewrite Nat.sub_diag.
    repeat split; auto; lia.
  - destruct (IH _ _ _ H) as (Hij & s & Hn & Hw & Hr).
    split; [lia|]; exists s.
    replace (j - i)%nat with (S (j - S i)) by lia; auto.
Qed.

Lemma section_requests_made sections : forall i k sec,
  nth_error sections k = Some sec ->
  len (PyStr.split (strip sec)) > 20 ->
  In ((i + k)%nat, request_of (strip sec)) (section_requests i sections).
Proof.
  induction sections as [|s rest IH]; intros i [|k] sec H W; simpl in H;
    try discriminate; simpl; rewrite in_app_iff.
  - injection H as ->; left.
    replace (len (PyStr.split (strip sec)) >? 20) with true
      by (symmetry; apply Z.gtb_lt; lia).
    rewrite Nat.add_0_r; left; reflexivity.
  - right; replace (i + S k)%nat with (S i + k)%nat by lia.
    apply IH; assumption.
Qed.

(** ** The length budget *)

(** C1: for every section of more than twenty words the run calls the
    capability with the first 1000 code points of the stripped section
    and with lengths such that adjusted_min is at least 1, adjusted_max
    is at most min(150, number of words of the truncated text), and
    adjusted_min < adjusted_max, except that both are 1 when
    adjusted_max is 1. *)
Theorem adjusted_lengths_bounded
    (summarizer : request -> outcome pystr) (text : pystr)
    (i : nat) (sec : pystr) :
  nth_error (split_sections text) i = Some sec ->
  len (PyStr.split (strip sec)) > 20 ->
  exists rq,
    In (i, rq) (invocations (run_sections summarizer text)) /\
    req_text rq = slice_to 1000 (strip sec) /\
    1 <= req_min_length rq /\
    req_max_length rq <= Z.min 150 (len (PyStr.split (req_text rq))) /\
    (req_min_length rq < req_max_length rq \/
     (req_max_length rq = 1 /\ req_min_length rq = 1)).
Proof.
  intros Hsec Hwc.
  exists (request_of (strip sec)); split.
  - rewrite run_sections_invocations.
    apply (section_requests_made _ 0 i sec); assumption.
  - assert (Htok : 1 <= len (PyStr.split (slice_to 1000 (strip sec))))
      by (apply short_text_has_word; lia).
    unfold request_of; cbn [req_text req_max_length req_min_length].
    unfold adjusted_min_of, adjusted_max_of, min_len_of, max_len_of.
    generalize (to_int (mul (of_int (len (PyStr.split (strip sec)))) half)).
    intros x.
    generalize (to_int (mul (of_int (Z.min 150 (Z.max 13 x))) six_tenths)).
    intros y.
    generalize dependent (len (PyStr.split (slice_to 1000 (strip sec)))).
    intros t Ht.
    split; [reflexivity|].
    destruct (Z.min (Z.min 150 (Z.max 13 x)) t >? 1) eqn:G;
      [apply Z.gtb_lt in G | rewrite Z.gtb_ltb in G; apply Z.ltb_ge in G];
      lia.
Qed.

(** The boundary case occurs: a first word of 1000 code points leaves
    one word in the truncated text, and both lengths are 1. *)
Example boundary_case_reached :
  len (PyStr.split (strip long_word_section)) = 21 /\
  req_max_length (request_of (strip long_word_section)) = 1 /\
  req_min_length (request_of (strip long_word_section)) = 1.
Proof. vm_compute; repeat split; reflexivity. Qed.

(** ** Short sections *)


(** ** Labels of the result *)

(** C9: the keys of the returned dictionary are, in insertion order,
    the labels Section 1, ..., Section k for the k sections of the text,
    whatever was recorded for them; no label occurs twice; and the label
    Section i+1 belongs to the i-th section in document order: it is
    the i-th key, and under it stands what the loop records for that
    section (the summary, the error text or the placeholder). *)
Theorem labels_in_document_order
    (summarizer : request -> outcome pystr) (text : pystr) :
  dict_keys (summarize_by_sections summarizer text) =
    map (fun i => of_string "Section " ++ str_of_nat (i + 1))
        (seq 0 (List.length (split_sections text))) /\
  NoDup (dict_keys (summarize_by_sections summarizer text)) /\
  forall i sec,
    nth_error (split_sections text) i = Some sec ->
    nth_error (dict_keys (summarize_by_sections summarizer text)) i =
      Some (of_string "Section " ++ str_of_nat (i + 1)) /\
    dict_get (summarize_by_sections summarizer text)
             (of_string "Section " ++ str_of_nat (i + 1)) =
      Some (if len (PyStr.split (strip sec)) >? 20
            then match summarizer (request_of (strip sec)) with
                 | Returned summary_text => summary_text
                 | Raised e => of_string "Error: " ++ e
                 end
            else of_string "Section too short to summarize.").
Proof.
  assert (K : dict_keys (summarize_by_sections summarizer text) =
              map label (seq 0 (List.length (split_sections text)))).
  { rewrite summarize_by_sections_eq.
    rewrite <- (length_map (recorded summarizer) (split_sections text)).
    apply dict_keys_labels. }
  split; [exact K|]; split.
  - rewrite K; apply Injective_map_NoDup; [|apply seq_NoDup].
    intros i j; apply label_inj.
  - intros i sec Hsec; split.
    + rewrite K, nth_error_map, nth_error_seq.
      assert (L : (i < List.length (split_sections text))%nat)
        by (apply nth_error_Some; congruence).
      apply Nat.ltb_lt in L; rewrite L; reflexivity.
    + change (of_string "Section " ++ str_of_nat (i + 1)) with (label i).
      rewrite summarize_by_sections_get, Hsec; reflexivity.
Qed.

(** ** Failures of the capability *)

(** C5: when the capability raises on the call made for section k, the
    error text with the failure description is recorded under the label
    of section k; every other label has the value it has in a run whose
    capability answers the calls of the other sections alike; and the
    session summary joins with single spaces the values recorded for all
    the sections in order, the error text among them. *)
Theorem failure_is_local
    (failing other : request -> outcome pystr) (text : pystr)
    (k : nat) (sec e : pystr) :
  nth_error (split_sections text) k = Some sec ->
  len (PyStr.split (strip sec)) > 20 ->
  failing (request_of (strip sec)) = Raised e ->
  (forall j sec_j,
      j <> k -> nth_error (split_sections text) j = Some sec_j ->
      len (PyStr.split (strip sec_j)) > 20 ->
      other (request_of (strip sec_j)) = failing (request_of (strip sec_j))) ->
  dict_get (summarize_by_sections failing text) (label k)
    = Some (of_string "Error: " ++ e) /\
  (forall j, j <> k ->
     dict_get (summarize_by_sections failing text) (label j) =
     dict_get (summarize_by_sections other text) (label j)) /\
  session_summary failing text =
    join (of_string " ") (map (recorded failing) (split_sections text)) /\
  nth_error (map (recorded failing) (split_sections text)) k
    = Some (of_string "Error: " ++ e).
Proof.
  intros Hsec Hwc Hraise Hsame.
  assert (R : recorded failing sec = error_text e).
  { unfold recorded.
    replace (len (PyStr.split (strip sec)) >? 20) with true
      by (symmetry; apply Z.gtb_lt; lia).
    rewrite Hraise; reflexivity. }
  repeat split.
  - rewrite summarize_by_sections_get, Hsec; simpl; rewrite R; reflexivity.
  - intros j Hj; rewrite !summarize_by_sections_get.
    destruct (nth_error (split_sections text) j) as [sec_j|] eqn:Ej;
      [simpl | reflexivity].
    f_equal; unfold recorded.
    destruct (len (PyStr.split (strip sec_j)) >? 20) eqn:W; [|reflexivity].
    rewrite (Hsame j sec_j Hj Ej); [reflexivity|].
    apply Z.gtb_lt in W; lia.
  - unfold session_summary; rewrite summarize_by_sections_eq.
    f_equal.
    rewrite <- (length_map (recorded failing) (split_sections text)).
    apply dict_values_labels.
  - rewrite nth_error_map, Hsec; simpl; rewrite R; reflexivity.
Qed.

(** ** The empty text *)

(** C10: on the empty text the run returns the single entry Section 1
    with the fixed placeholder and makes no call to the capability. *)
Theorem empty_text_one_skipped_section
    (summarizer : request -> outcome pystr) :
  run_sections summarizer [] =
    {| summaries :=
         [(of_string "Section 1",
           of_string "Section too short to summarize.")];
       invocations := [] |}.
Proof. reflexivity. Qed.

(** ** Floats *)

#[local] Set Warnings "-inexact-float".

(** The literals are the binary64 values the parser of floats gives. *)
Lemma half_literal : Prim2SF 0.5%float = half.
Proof. reflexivity. Qed.

Lemma six_tenths_literal : Prim2SF 0.6%float = six_tenths.
Proof. reflexivity. Qed.

Lemma digits2_pos_bounds (p : positive) :
  2 ^ (Zpos (digits2_pos p) - 1) <= Zpos p < 2 ^ Zpos (digits2_pos p).
Proof.
  induction p as [p IH|p IH|]; cbn [digits2_pos].
  - rewrite Pos2Z.inj_succ, Z.pow_succ_r by lia.
    replace (Z.succ (Zpos (digits2_pos p)) - 1) with (Z.succ (Zpos (digits2_pos p) - 1)) by lia.
    rewrite Z.pow_succ_r by lia. lia.
  - rewrite Pos2Z.inj_succ, Z.pow_succ_r by lia.
    replace (Z.succ (Zpos (digits2_pos p)) - 1) with (Z.succ (Zpos (digits2_pos p) - 1)) by lia.
    rewrite Z.pow_succ_r by lia. lia.
  - simpl. lia.
Qed.

Lemma digits2_pos_unique (p : positive) (k : Z) :
  2 ^ (k - 1) <= Zpos p < 2 ^ k -> Zpos (digits2_pos p) = k.
Proof.
  intros [Hlo Hhi].
  pose proof (digits2_pos_bounds p) as [Glo Ghi].
  assert (0 < k).
  { destruct (Z.ltb_spec 0 k); auto.
    assert (2 ^ k <= 2 ^ 0) by (apply Z.pow_le_mono_r; lia).
    simpl in *. lia. }
  destruct (Z.lt_trichotomy (Zpos (digits2_pos p)) k) as [L|[E|G]]; auto.
  - assert (2 ^ Zpos (digits2_pos p) <= 2 ^ (k - 1)) by (apply Z.pow_le_mono_r; lia). lia.
  - assert (2 ^ k <= 2 ^ (Zpos (digits2_pos p) - 1)) by (apply Z.pow_le_mono_r; lia). lia.
Qed.

Lemma shr_fexp_normal (m : positive) (e : Z) :
  digits2_pos m = 53%positive -> -1074 <= e ->
  shr_fexp prec emax (Zpos m) e loc_Exact =
  ({| shr_m := Zpos m; shr_r := false; shr_s := false |}, e).
Proof.
  intros Hd He; unfold shr_fexp, Zdigits2; rewrite Hd.
  replace (fexp prec emax (Zpos 53 + e) - e) with 0
    by (unfold fexp, SpecFloat.emin, prec, emax; lia).
  reflexivity.
Qed.

Lemma round_normal (m : positive) (e : Z) :
  digits2_pos m = 53%positive -> -1074 <= e <= 971 ->
  binary_round_aux prec emax false (Zpos m) e loc_Exact = S754_finite false m e.
Proof.
  intros Hd He; unfold binary_round_aux.
  rewrite shr_fexp_normal by (auto; lia).
  cbn [shr_m loc_of_shr_record round_nearest_even].
  rewrite shr_fexp_normal by (auto; lia).
  cbn [shr_m].
  replace (e <=? emax - prec) with true
    by (symmetry; apply Z.leb_le; unfold emax, prec; lia).
  reflexivity.
Qed.

Lemma mul_half (m : positive) (e : Z) :
  digits2_pos m = 53%positive -> -1073 <= e <= 971 ->
  mul (S754_finite false m e) half = S754_finite false m (e - 1).
Proof.
  intros Hd He.
  unfold mul, half, SFmul; cbn [xorb].
  unfold binary_round_aux.
  assert (S1 : shr_fexp prec emax (Zpos (m * 4503599627370496)) (e + -53) loc_Exact =
               ({| shr_m := Zpos m; shr_r := false; shr_s := false |}, e - 1)).
  { unfold shr_fexp, Zdigits2.
    rewrite Pos.mul_comm; cbn [Pos.mul digits2_pos]; rewrite Hd.
    cbn [Pos.succ].
    replace (fexp prec emax (Zpos 105 + (e + -53)) - (e + -53)) with 52
      by (unfold fexp, SpecFloat.emin, prec, emax; lia).
    cbn [shr shr_record_of_loc iter_pos shr_1 orb].
    f_equal; lia. }
  rewrite S1; cbn [shr_m loc_of_shr_record round_nearest_even].
  rewrite shr_fexp_normal by (auto; lia).
  cbn [shr_m].
  replace (e - 1 <=? emax - prec) with true
    by (symmetry; apply Z.leb_le; unfold emax, prec; lia).
  reflexivity.
Qed.

Lemma digits2_pos_shift (p k : positive) :
  digits2_pos (Pos.iter xO p k) = (digits2_pos p + k)%positive.
Proof.
  induction k as [|k IH] using Pos.peano_ind.
  - simpl; rewrite Pos.add_1_r; reflexivity.
  - rewrite Pos.iter_succ; cbn [digits2_pos]; rewrite IH.
    rewrite Pos.add_succ_r; reflexivity.
Qed.

Lemma Zpos_shift (p k : positive) :
  Zpos (Pos.iter xO p k) = Zpos p * 2 ^ Zpos k.
Proof.
  induction k as [|k IH] using Pos.peano_ind.
  - simpl; lia.
  - rewrite Pos.iter_succ, Pos2Z.inj_xO, IH, Pos2Z.inj_succ.
    rewrite Z.pow_succ_r by lia; lia.
Qed.

Lemma iter_pos_iter {A} (f : A -> A) (k : positive) : forall x,
  iter_pos f k x = Pos.iter f x k.
Proof.
  induction k as [k IH|k IH|]; intros x; simpl.
  - rewrite !IH, <- !Pos.iter_swap; reflexivity.
  - rewrite !IH; reflexivity.
  - reflexivity.
Qed.

Lemma shr_1_m (mrs : shr_record) :
  0 <= shr_m mrs -> shr_m (shr_1 mrs) = shr_m mrs / 2.
Proof.
  destruct mrs as [m r s]; simpl; intros Hm.
  rewrite <- Z.div2_div.
  destruct m as [|[p|p|]|p]; try reflexivity; lia.
Qed.

Lemma shr_m_iter (k : positive) (mrs : shr_record) :
  0 <= shr_m mrs ->
  shr_m (iter_pos shr_1 k mrs) = shr_m mrs / 2 ^ Zpos k.
Proof.
  intros Hm; rewrite iter_pos_iter.
  induction k as [|k IH] using Pos.peano_ind.
  - simpl Pos.iter; rewrite shr_1_m by exact Hm; reflexivity.
  - rewrite Pos.iter_succ, shr_1_m; rewrite IH.
    + rewrite Pos2Z.inj_succ, Z.pow_succ_r by lia.
      rewrite Z.div_div by lia. f_equal; lia.
    + apply Z.div_pos; lia.
Qed.

Lemma round_nearest_even_step (m : Z) (l : location) :
  round_nearest_even m l = m \/ round_nearest_even m l = m + 1.
Proof.
  destruct l as [|[| |]]; simpl; auto.
  destruct (Z.even m); auto.
Qed.

(** [float(n)] for a positive integer below [2^53] is exact. *)
Lemma of_int_small (p : positive) :
  Zpos p < 2 ^ 53 ->
  exists m e,
    of_int (Zpos p) = S754_finite false m e /\
    digits2_pos m = 53%positive /\ -52 <= e <= 0 /\
    Zpos m = Zpos p * 2 ^ (- e).
Proof.
  intros Hp.
  pose proof (digits2_pos_bounds p) as [Hlo Hhi].
  assert (Hd : Zpos (digits2_pos p) <= 53).
  { destruct (Z.leb_spec (Zpos (digits2_pos p)) 53) as [|G]; auto.
    assert (2 ^ 53 <= 2 ^ (Zpos (digits2_pos p) - 1))
      by (apply Z.pow_le_mono_r; lia).
    lia. }
  unfold of_int, binary_normalize, binary_round, shl_align.
  replace (fexp prec emax (Zpos (digits2_pos p) + 0))
    with (Zpos (digits2_pos p) - 53)
    by (unfold fexp, SpecFloat.emin, prec, emax; lia).
  destruct (Zpos (digits2_pos p) - 53 - 0) as [|k|k] eqn:K; [| lia |].
  - exists p, 0.
    assert (digits2_pos p = 53%positive) as E by lia.
    rewrite round_normal by (auto; lia).
    repeat split; auto; lia.
  - exists (Pos.iter xO p k), (Zpos (digits2_pos p) - 53).
    assert (E : digits2_pos (Pos.iter xO p k) = 53%positive)
      by (rewrite digits2_pos_shift; lia).
    rewrite round_normal by (auto; lia).
    repeat split; auto; try lia.
    rewrite Zpos_shift; do 2 f_equal; lia.
Qed.

(** [float(n)] for an integer from [2^53] on, below [2^1023], is a
    normal number with a positive exponent. *)
Lemma of_int_large (p : positive) :
  2 ^ 53 <= Zpos p < 2 ^ 1023 ->
  exists m e,
    of_int (Zpos p) = S754_finite false m e /\
    digits2_pos m = 53%positive /\ 1 <= e <= 971.
Proof.
  intros [Hp1 Hp2].
  pose proof (digits2_pos_bounds p) as [Hlo Hhi].
  set (d := Zpos (digits2_pos p)) in *.
  assert (Hd : 53 < d <= 1023).
  { split.
    - destruct (Z.ltb_spec 53 d) as [|G]; auto.
      assert (2 ^ d <= 2 ^ 53) by (apply Z.pow_le_mono_r; lia). lia.
    - destruct (Z.leb_spec d 1023) as [|G]; auto.
      assert (2 ^ 1023 <= 2 ^ (d - 1)) by (apply Z.pow_le_mono_r; lia).
      lia. }
  unfold of_int, binary_normalize, binary_round, shl_align.
  fold d.
  replace (fexp prec emax (d + 0)) with (d - 53)
    by (unfold fexp, SpecFloat.emin, prec, emax; lia).
  destruct (d - 53 - 0) as [|k|k] eqn:K; [lia | | lia].
  unfold binary_round_aux.
  unfold shr_fexp at 1. 
  unfold Zdigits2 at 1; fold d.
  replace (fexp prec emax (d + 0) - 0) with (Zpos k)
    by (unfold fexp, SpecFloat.emin, prec, emax; lia).
  cbn [shr shr_record_of_loc].
  set (mrs := iter_pos shr_1 k _).
  assert (M : shr_m mrs = Zpos p / 2 ^ Zpos k)
    by (apply shr_m_iter; simpl; lia).
  assert (B : 2 ^ 52 <= shr_m mrs < 2 ^ 53).
  { rewrite M.
    assert (P : 0 < 2 ^ Zpos k) by (apply Z.pow_pos_nonneg; lia).
    replace (d - 1) with (52 + Zpos k) in Hlo by lia.
    replace d with (53 + Zpos k) in Hhi by lia.
    rewrite Z.pow_add_r in Hlo, Hhi by lia.
    split.
    - apply Z.div_le_lower_bound; lia.
    - apply Z.div_lt_upper_bound; lia. }
  destruct (round_nearest_even_step (shr_m mrs) (loc_of_shr_record mrs))
    as [R|R]; rewrite R.
  - destruct (shr_m mrs) as [|q|q] eqn:Q; try (simpl in B; lia).
    assert (E : digits2_pos q = 53%positive).
    { assert (Zpos (digits2_pos q) = 53)
        by (apply digits2_pos_unique; simpl; lia). lia. }
    rewrite shr_fexp_normal by (auto; lia).
    cbn [shr_m].
    replace (0 + Zpos k <=? emax - prec) with true
      by (symmetry; apply Z.leb_le; unfold emax, prec; lia).
    exists q, (0 + Zpos k); repeat split; auto; lia.
  - destruct (Z.eq_dec (shr_m mrs + 1) (2 ^ 53)) as [T|T].
    + rewrite T.
      unfold shr_fexp; simpl Zdigits2.
      replace (fexp prec emax (54 + (0 + Zpos k)) - (0 + Zpos k)) with 1
        by (unfold fexp, SpecFloat.emin, prec, emax; lia).
      cbn.
      replace (Zpos (k + 1) <=? 971) with true
        by (symmetry; apply Z.leb_le; lia).
      eexists _, _; split; [reflexivity|]; split; [reflexivity|]; lia.
    + destruct (shr_m mrs + 1) as [|q|q] eqn:Q; try (simpl in B; lia).
      assert (E : digits2_pos q = 53%positive).
      { assert (Zpos (digits2_pos q) = 53)
          by (apply digits2_pos_unique; simpl in *; lia). lia. }
      rewrite shr_fexp_normal by (auto; lia).
      cbn [shr_m].
      replace (0 + Zpos k <=? emax - prec) with true
        by (symmetry; apply Z.leb_le; unfold emax, prec; lia).
      exists q, (0 + Zpos k); repeat split; auto; lia.
Qed.

Lemma to_int_half_small (w : Z) :
  0 < w < 2 ^ 53 -> to_int (mul (of_int w) half) = w / 2.
Proof.
  intros [H0 H1]; destruct w as [|p|p]; try lia.
  destruct (of_int_small p H1) as (m & e & -> & Hd & He & Hm).
  rewrite mul_half by (auto; lia).
  unfold to_int.
  destruct (e - 1) as [|q|q] eqn:Q; try lia.
  rewrite Hm.
  replace (Zpos q) with (- e + 1) by lia.
  rewrite Z.pow_add_r by lia.
  change (2 ^ 1) with 2; rewrite (Z.mul_comm _ 2).
  apply Z.div_mul_cancel_r; [lia|].
  apply Z.pow_nonzero; lia.
Qed.

Lemma to_int_half_large (w : Z) :
  2 ^ 53 <= w < 2 ^ 1023 -> 2 ^ 52 <= to_int (mul (of_int w) half).
Proof.
  intros H; destruct w as [|p|p]; try lia.
  destruct (of_int_large p H) as (m & e & -> & Hd & He).
  rewrite mul_half by (auto; lia).
  pose proof (digits2_pos_bounds m) as [Hlo _]; rewrite Hd in Hlo.
  change (2 ^ (53 - 1)) with (2 ^ 52) in Hlo.
  unfold to_int.
  destruct (e - 1) as [|q|q] eqn:Q; lia.
Qed.

Lemma max_len_of_eq (w : Z) :
  0 < w < 2 ^ 1023 -> max_len_of w = Z.min 150 (Z.max 13 (w / 2)).
Proof.
  intros [H0 H1]; unfold max_len_of.
  destruct (Z.ltb_spec w (2 ^ 53)) as [S|L].
  - rewrite to_int_half_small by lia; reflexivity.
  - pose proof (to_int_half_large w (conj L H1)) as G.
    assert (2 ^ 52 <= w / 2) by (apply Z.div_le_lower_bound; lia).
    assert (150 <= 2 ^ 52) by (vm_compute; discriminate).
    lia.
Qed.

Lemma min_len_of_eq (m : Z) :
  13 <= m <= 150 -> min_len_of m = Z.max 10 (3 * m / 5).
Proof.
  intros Hm.
  assert (A : forallb (fun n => min_len_of (Z.of_nat n)
                                =? Z.max 10 (3 * Z.of_nat n / 5))
                      (seq 13 138) = true) by (vm_compute; reflexivity).
  rewrite forallb_forall in A.
  specialize (A (Z.to_nat m)).
  rewrite Z2Nat.id in A by lia.
  apply Z.eqb_eq, A, in_seq; lia.
Qed.

(** ** Rounding of the length budget *)

(** C2, as the specification words it, fails: 27 words give max_len 13
    where rounding 13.5 to the nearest integer gives 14, and max_len 18
    (36 words) gives min_len 10 where rounding 10.8 gives 11. *)
Lemma budget_is_not_rounded :
  27 > 20 /\ max_len_of 27 <> spec_max_len 27 /\
  36 > 20 /\ min_len_of (max_len_of 36) <> spec_min_len (max_len_of 36).
Proof. vm_compute; repeat split; discriminate. Qed.

(** C2, amended: for a section of more than twenty words (and fewer
    than 2^63, the largest length of a Python list), max_len is the
    integer part of half the word count, kept between 13 and 150, and
    min_len is the integer part of six tenths of max_len, or 10 if that
    is larger: [int] drops the fraction instead of rounding. *)
Theorem budget_is_truncated (sec : pystr) :
  let word_count := len (PyStr.split (strip sec)) in
  let max_len := max_len_of word_count in
  20 < word_count < 2 ^ 63 ->
  max_len = clamp 13 150 (word_count / 2) /\
  min_len_of max_len = Z.max 10 (3 * max_len / 5).
Proof.
  intros word_count max_len [Hlo Hhi].
  assert (2 ^ 63 < 2 ^ 1023) by (apply Z.pow_lt_mono_r; lia).
  assert (E : max_len = clamp 13 150 (word_count / 2))
    by (apply max_len_of_eq; lia).
  split; [exact E|].
  apply min_len_of_eq; rewrite E; unfold clamp; lia.
Qed.

Lemma budget_is_truncated_witness :
  20 < len (PyStr.split (strip cache_section_3)) < 2 ^ 63 /\
  max_len_of (len (PyStr.split (strip cache_section_3))) = 13 /\
  min_len_of (max_len_of (len (PyStr.split (strip cache_section_3)))) = 10.
Proof.
  assert (H : 20 < len (PyStr.split (strip cache_section_3)) < 2 ^ 63)
    by (vm_compute; split; reflexivity).
  split; [exact H|].
  destruct (budget_is_truncated cache_section_3 H) as [A B].
  split; [rewrite A | rewrite B, A]; vm_compute; reflexivity.
Defined.

(** ** Scenario A *)

(** C6, as the specification words it, fails: the text of scenario A is
    not cut in two, and its only section has three words, not two. *)
Lemma scenario_a_is_not_cut :
  List.length (split_sections scenario_a) <> 2%nat /\
  len (PyStr.split (strip scenario_a)) <> 2.
Proof. vm_compute; split; discriminate. Qed.

(** C6, amended: the heading at the very start of scenario A follows no
    newline, so the text is not cut; its only section is the whole
    text, of three words, and it gets the fixed placeholder under
    Section 1 without any call to the capability. *)
Theorem scenario_a_single_skipped_section
    (summarizer : request -> outcome pystr) :
  split_sections scenario_a = [scenario_a] /\
  len (PyStr.split (strip scenario_a)) = 3 /\
  run_sections summarizer scenario_a =
    {| summaries := [(of_string "Section 1", too_short)];
       invocations := [] |}.
Proof. repeat split; reflexivity. Qed.

(** ** The video identifier *)

(** C7 at a link with a second query parameter: the identifier handed
    to the transcript service is everything after [v=], the start time
    included, not the value of [v]. *)
Theorem video_id_keeps_later_parameters :
  video_id_of timed_link = of_string "dQw4w9WgXcQ&t=42s" /\
  video_id_of timed_link <> of_string "dQw4w9WgXcQ".
Proof. vm_compute; split; [reflexivity | discriminate]. Qed.

(** The transcript is asked for that identifier, and the texts of its
    fragments are joined by single spaces. *)
Lemma get_youtube_transcript_joined
    (get_transcript : pystr -> outcome (list fragment))
    (url : pystr) (transcript : list fragment) :
  get_transcript (video_id_of url) = Returned transcript ->
  get_youtube_transcript get_transcript url =
  join (of_string " ") (map text transcript).
Proof. unfold get_youtube_transcript; intros ->; reflexivity. Qed.

(** ** Texts without headings *)

Lemma after_newlines_complete (s : pystr) : forall before rest,
  s = before ++ newline :: rest -> In rest (after_newlines s).
Proof.
  induction s as [|c s IH]; intros [|b before] rest E; simpl in E;
    try discriminate; injection E as -> ->; cbn [after_newlines].
  - apply in_or_app; left; rewrite N.eqb_refl; left; reflexivity.
  - apply in_or_app; right; apply (IH before rest); reflexivity.
Qed.

Lemma heading_free_sound (text : pystr) :
  heading_free text = true ->
  forall rest, line_start text rest -> ~ heading_line rest.
Proof.
  unfold heading_free; rewrite forallb_forall.
  intros H rest L Hh.
  apply heading_line_ahead in Hh.
  assert (I : In rest (text :: after_newlines text)).
  { destruct L as [->|[before E]]; [left; reflexivity|].
    right; apply (after_newlines_complete text before rest E). }
  apply H in I; rewrite Hh in I; discriminate.
Qed.

(** ** Runs on the sample inputs *)

Lemma cache_notes_sections :
  split_sections cache_notes =
  [cache_section_1; cache_section_2; cache_section_3].
Proof. vm_compute; reflexivity. Qed.

Lemma no_heading_single_section_witness :
  (forall rest, line_start plain_note rest -> ~ heading_line rest) /\
  split_sections plain_note = [plain_note].
Proof.
  assert (H : forall rest, line_start plain_note rest -> ~ heading_line rest)
    by (apply heading_free_sound; vm_compute; reflexivity).
  split; [exact H | exact (no_heading_single_section plain_note H)].
Defined.

Lemma adjusted_lengths_bounded_witness :
  exists rq,
    In (1%nat, rq) (invocations (run_sections steady cache_notes)) /\
    req_text rq = slice_to 1000 (strip cache_section_2) /\
    1 <= req_min_length rq /\
    req_max_length rq <= Z.min 150 (len (PyStr.split (req_text rq))) /\
    (req_min_length rq < req_max_length rq \/
     (req_max_length rq = 1 /\ req_min_length rq = 1)).
Proof.
  apply (adjusted_lengths_bounded steady cache_notes 1 cache_section_2).
  - rewrite cache_notes_sections; reflexivity.
  - vm_compute; reflexivity.
Defined.


Lemma failure_is_local_witness :
  dict_get (summarize_by_sections failing_on_2 cache_notes) (label 1)
    = Some (of_string "Error: " ++ of_string "index out of range in self") /\
  (forall j, j <> 1%nat ->
     dict_get (summarize_by_sections failing_on_2 cache_notes) (label j) =
     dict_get (summarize_by_sections steady cache_notes) (label j)) /\
  session_summary failing_on_2 cache_notes =
    join (of_string " ")
         (map (recorded failing_on_2) (split_sections cache_notes)) /\
  nth_error (map (recorded failing_on_2) (split_sections cache_notes)) 1
    = Some (of_string "Error: " ++ of_string "index out of range in self").
Proof.
  apply (failure_is_local failing_on_2 steady cache_notes 1 cache_section_2).
  - rewrite cache_notes_sections; reflexivity.
  - vm_compute; reflexivity.
  - vm_compute; reflexivity.
  - rewrite cache_notes_sections.
    intros [|[|[|j]]] sec_j Hj Hn _; cbn [nth_error] in Hn.
    + injection Hn as <-; vm_compute; reflexivity.
    + congruence.
    + injection Hn as <-; vm_compute; reflexivity.
    + destruct j; discriminate.
Defined.

(** ** Cutting a text at a separator *)

Lemma startswith_app (sep rest : pystr) : startswith sep (sep ++ rest) = true.
Proof.
  induction sep as [|a sep IH]; simpl; [reflexivity|].
  rewrite N.eqb_refl; exact IH.
Qed.

Lemma startswith_inv (sep : pystr) : forall s,
  startswith sep s = true -> exists rest, s = sep ++ rest.
Proof.
  induction sep as [|a sep IH]; intros s H; simpl in H.
  - exists s; reflexivity.
  - destruct s as [|b s]; [discriminate|].
    apply andb_true_iff in H; destruct H as [E H].
    apply N.eqb_eq in E; subst b.
    destruct (IH s H) as [rest ->]; exists rest; reflexivity.
Qed.

Lemma split_at_nonempty (sep s : pystr) : forall skip cur,
  split_at sep skip cur s <> [].
Proof.
  induction s as [|c s IH]; intros skip cur; simpl; [discriminate|].
  destruct skip; [|apply IH].
  destruct (startswith sep (c :: s)); [discriminate | apply IH].
Qed.

Lemma split_at_skip (sep pre : pystr) : forall cur rest,
  split_at sep (List.length pre) cur (pre ++ rest) = split_at sep O cur rest.
Proof.
  induction pre as [|a pre IH]; intros cur rest; [reflexivity|].
  simpl; apply IH.
Qed.

(** At an occurrence of the separator the piece read so far is closed
    and the scan resumes behind the separator. *)
Lemma split_at_match (sep cur rest : pystr) :
  sep <> [] ->
  split_at sep O cur (sep ++ rest) = rev cur :: split_at sep O [] rest.
Proof.
  destruct sep as [|c sep]; [congruence | intros _].
  change ((c :: sep) ++ rest) with (c :: (sep ++ rest)).
  cbn [split_at].
  change (c :: sep ++ rest) with ((c :: sep) ++ rest).
  rewrite startswith_app.
  cbn [List.length]; rewrite Nat.sub_succ, Nat.sub_0_r.
  rewrite split_at_skip; reflexivity.
Qed.

Lemma split_at_no_match (sep cur : pystr) (a : char) (s : pystr) :
  startswith sep (a :: s) = false ->
  split_at sep O cur (a :: s) = split_at sep O (a :: cur) s.
Proof. intros H; cbn [split_at]; rewrite H; reflexivity. Qed.

(** Joining the pieces with the separator gives the text back. *)
Lemma split_at_join (sep : pystr) :
  sep <> [] ->
  forall n s cur,
    (List.length s <= n)%nat ->
    join sep (split_at sep O cur s) = rev cur ++ s.
Proof.
  intros Hsep; induction n as [|n IH]; intros s cur Hn.
  - destruct s; [|simpl in Hn; lia].
    simpl; rewrite app_nil_r; reflexivity.
  - destruct s as [|a s]; [simpl; rewrite app_nil_r; reflexivity|].
    destruct (startswith sep (a :: s)) eqn:M.
    + destruct (startswith_inv sep _ M) as [rest E]; rewrite E.
      rewrite split_at_match by exact Hsep.
      rewrite join_cons by apply split_at_nonempty.
      rewrite IH; [reflexivity|].
      assert (L : List.length (a :: s) = List.length (sep ++ rest))
        by (rewrite E; reflexivity).
      rewrite length_app in L; simpl in L.
      destruct sep; [congruence | simpl in L; simpl in Hn; lia].
    + rewrite split_at_no_match by exact M.
      rewrite IH by (simpl in Hn; lia).
      simpl; rewrite <- app_assoc; reflexivity.
Qed.

Lemma last_cons_nonempty {A} (x : A) (l : list A) (d : A) :
  l <> [] -> last (x :: l) d = last l d.
Proof. destruct l; [congruence | reflexivity]. Qed.

(** A text in which the separator starts nowhere does not contain it. *)
Lemma contains_none (sep l : pystr) :
  (forall a b, l = a ++ b -> startswith sep b = false) ->
  contains sep l = false.
Proof.
  induction l as [|c l IH]; intros H.
  - simpl; rewrite (H [] [] eq_refl); reflexivity.
  - cbn [contains]; rewrite (H [] (c :: l) eq_refl); simpl.
    apply IH; intros a b ->; apply (H (c :: a) b); reflexivity.
Qed.

(** The last piece does not contain the separator. *)
Lemma split_at_last_clean (sep : pystr) :
  sep <> [] ->
  forall n s cur,
    (List.length s <= n)%nat ->
    (forall a b, rev cur = a ++ b -> b <> [] ->
                 startswith sep (b ++ s) = false) ->
    contains sep (last (split_at sep O cur s) []) = false.
Proof.
  intros Hsep; induction n as [|n IH]; intros s cur Hn Hcur.
  - destruct s; [|simpl in Hn; lia].
    simpl; apply contains_none; intros a b E.
    destruct b as [|c b]; [destruct sep; [congruence | reflexivity]|].
    rewrite <- (app_nil_r (c :: b)); apply (Hcur a); [exact E | discriminate].
  - destruct s as [|c s].
    + simpl; apply contains_none; intros a b E.
      destruct b as [|d b]; [destruct sep; [congruence | reflexivity]|].
      rewrite <- (app_nil_r (d :: b)); apply (Hcur a);
        [exact E | discriminate].
    + destruct (startswith sep (c :: s)) eqn:M.
      * destruct (startswith_inv sep _ M) as [rest E]; rewrite E.
        rewrite split_at_match by exact Hsep.
        rewrite last_cons_nonempty by apply split_at_nonempty.
        apply IH.
        -- assert (L : List.length (c :: s) = List.length (sep ++ rest))
             by (rewrite E; reflexivity).
           rewrite length_app in L; simpl in L.
           destruct sep; [congruence | simpl in L; simpl in Hn; lia].
        -- intros a b Eab Hb; destruct a; destruct b; simpl in Eab;
             congruence.
      * rewrite split_at_no_match by exact M.
        apply IH; [simpl in Hn; lia|].
        intros a b Eab Hb.
        simpl in Eab.
        destruct (exists_last Hb) as (b' & x & ->).
        rewrite app_assoc in Eab.
        apply app_inj_tail in Eab; destruct Eab as [Eab ->].
        rewrite <- app_assoc; simpl.
        destruct b' as [|y b']; [exact M|].
        apply (Hcur a); [exact Eab | discriminate].
Qed.

Lemma join_last (sep : pystr) (parts : list pystr) :
  parts <> [] ->
  join sep parts = last parts [] \/
  exists before, join sep parts = before ++ sep ++ last parts [].
Proof.
  induction parts as [|p ps IH]; [congruence | intros _].
  destruct ps as [|q ps]; [left; reflexivity | right].
  rewrite join_cons by discriminate.
  rewrite last_cons_nonempty by discriminate.
  destruct IH as [E|[before E]]; [discriminate | |]; rewrite E.
  - exists p; reflexivity.
  - exists (p ++ sep ++ before); rewrite <- !app_assoc; reflexivity.
Qed.

(** [s.split(sep)[-1]] is what follows the last occurrence of the
    separator, or the whole text when the separator does not occur. *)
Lemma split_sep_last (sep s : pystr) :
  sep <> [] ->
  contains sep (last (split_sep sep s) []) = false /\
  (last (split_sep sep s) [] = s \/
   exists before, s = before ++ sep ++ last (split_sep sep s) []).
Proof.
  intros Hsep; unfold split_sep; split.
  - apply (split_at_last_clean sep Hsep (List.length s)); [lia|].
    intros a b E Hb; destruct a; destruct b; simpl in E; congruence.
  - pose proof (split_at_join sep Hsep (List.length s) s []
                              (Nat.le_refl _)) as J.
    simpl in J.
    destruct (join_last sep (split_at sep O [] s)
                        (split_at_nonempty sep s O [])) as [E|[b E]];
      rewrite J in E; [left | right; exists b]; congruence.
Qed.

(** ** The video identifier, in general *)

(** For a reference that does not mention youtube.com the identifier
    is what follows the last slash, or the whole reference when it has
    no slash; it never contains a slash. *)
Theorem video_id_of_bare_reference (url : pystr) :
  contains (of_string "youtube.com") url = false ->
  contains (of_string "/") (video_id_of url) = false /\
  (video_id_of url = url \/
   exists before, url = before ++ of_string "/" ++ video_id_of url).
Proof.
  intros H; unfold video_id_of; rewrite H.
  apply split_sep_last; discriminate.
Qed.

Lemma video_id_of_bare_reference_witness :
  contains (of_string "youtube.com") short_link = false /\
  contains (of_string "/") (video_id_of short_link) = false /\
  (video_id_of short_link = short_link \/
   exists before,
     short_link = before ++ of_string "/" ++ video_id_of short_link).
Proof.
  assert (H : contains (of_string "youtube.com") short_link = false)
    by (vm_compute; reflexivity).
  split; [exact H | exact (video_id_of_bare_reference short_link H)].
Defined.

(** For a link that mentions youtube.com the identifier is everything
    that follows the last [v=], or the whole link when it has no [v=];
    it never contains [v=]. *)
Theorem video_id_of_youtube_link (url : pystr) :
  contains (of_string "youtube.com") url = true ->
  contains (of_string "v=") (video_id_of url) = false /\
  (video_id_of url = url \/
   exists before, url = before ++ of_string "v=" ++ video_id_of url).
Proof.
  intros H; unfold video_id_of; rewrite H.
  apply split_sep_last; discriminate.
Qed.

Lemma video_id_of_youtube_link_witness :
  contains (of_string "youtube.com") watch_link = true /\
  contains (of_string "v=") (video_id_of watch_link) = false /\
  (video_id_of watch_link = watch_link \/
   exists before,
     watch_link = before ++ of_string "v=" ++ video_id_of watch_link).
Proof.
  assert (H : contains (of_string "youtube.com") watch_link = true)
    by (vm_compute; reflexivity).
  split; [exact H | exact (video_id_of_youtube_link watch_link H)].
Defined.

(** ** Whitespace and words *)

Lemma split_drop_space (s : pystr) :
  PyStr.split (drop_space s) = PyStr.split s.
Proof.
  unfold PyStr.split; induction s as [|c s IH]; simpl; [reflexivity|].
  destruct (is_space c) eqn:E; [exact IH|].
  simpl; rewrite E; reflexivity.
Qed.

Lemma split_words_trailing (w : char) (s : pystr) : forall cur,
  is_space w = true -> split_words cur (s ++ [w]) = split_words cur s.
Proof.
  induction s as [|c s IH]; intros cur Hw; simpl.
  - rewrite Hw; destruct cur; reflexivity.
  - destruct (is_space c); [destruct cur|]; rewrite ?IH by exact Hw;
      reflexivity.
Qed.

Lemma split_rstrip (s : pystr) : PyStr.split (rstrip s) = PyStr.split s.
Proof.
  unfold rstrip, PyStr.split.
  rewrite <- (rev_involutive s) at 2.
  induction (rev s) as [|w l IH]; simpl; [reflexivity|].
  destruct (is_space w) eqn:E; [|reflexivity].
  rewrite split_words_trailing by exact E; exact IH.
Qed.

(** The words of a text are those of the stripped text: the whitespace
    around a section does not count. *)
Theorem split_strip (s : pystr) : PyStr.split (strip s) = PyStr.split s.
Proof. unfold strip, lstrip; rewrite split_rstrip; apply split_drop_space. Qed.

(** A stripped text is empty exactly when the text has nothing but
    whitespace. *)
Lemma truthy_strip (s : pystr) :
  truthy (strip s) = existsb (fun c => negb (is_space c)) s.
Proof.
  unfold strip, lstrip; induction s as [|c s IH]; simpl; [reflexivity|].
  destruct (is_space c) eqn:E; simpl; [exact IH|].
  destruct (rstrip_keeps_head c s E) as [s' ->]; reflexivity.
Qed.

Lemma split_words_length (s : pystr) : forall cur,
  (List.length (split_words cur s) <=
   List.length s + match cur with [] => 0 | _ => 1 end)%nat.
Proof.
  induction s as [|c s IH]; intros cur; simpl.
  - destruct cur; simpl; lia.
  - destruct (is_space c).
    + destruct cur; simpl; specialize (IH []); simpl in IH; lia.
    + specialize (IH (c :: cur)); simpl in IH; destruct cur; lia.
Qed.

(** A text has at most as many words as code points. *)
Lemma split_length (s : pystr) : len (PyStr.split s) <= len s.
Proof.
  unfold len, PyStr.split.
  pose proof (split_words_length s []) as H; simpl in H; lia.
Qed.

Lemma strip_length (s : pystr) : (List.length (strip s) <= List.length s)%nat.
Proof.
  assert (D : forall l, (List.length (drop_space l) <= List.length l)%nat).
  { induction l as [|c l IH]; simpl; [lia|].
    destruct (is_space c); simpl; lia. }
  unfold strip, rstrip, lstrip.
  rewrite length_rev.
  etransitivity; [apply D|].
  rewrite length_rev; apply D.
Qed.

(** ** The length budget before and after the adjustment *)

Lemma max_min_len_range (word_count : Z) :
  13 <= max_len_of word_count <= 150 /\
  10 <= min_len_of (max_len_of word_count) <= 90 /\
  min_len_of (max_len_of word_count) < max_len_of word_count.
Proof.
  assert (R : 13 <= max_len_of word_count <= 150)
    by (unfold max_len_of; lia).
  rewrite (min_len_of_eq _ R).
  pose proof (Z.mul_div_le (3 * max_len_of word_count) 5 eq_refl).
  assert (3 * max_len_of word_count / 5 <= 90)
    by (apply Z.div_le_upper_bound; lia).
  lia.
Qed.

(** Whatever the word count, max_len lies between 13 and 150, min_len
    between 10 and 90, and min_len is below max_len. *)
Theorem budget_range (word_count : Z) :
  13 <= max_len_of word_count <= 150 /\
  10 <= min_len_of (max_len_of word_count) <= 90 /\
  min_len_of (max_len_of word_count) < max_len_of word_count.
Proof. exact (max_min_len_range word_count). Qed.

(** For a section that fits in 1000 code points the adjustment changes
    nothing: the call carries the whole stripped section, max_len and
    min_len, with max_len half the word count kept between 13 and 150. *)
Theorem untruncated_section_request (sec : pystr) :
  let word_count := len (PyStr.split (strip sec)) in
  word_count > 20 ->
  len (strip sec) <= 1000 ->
  req_text (request_of (strip sec)) = strip sec /\
  req_max_length (request_of (strip sec)) = clamp 13 150 (word_count / 2) /\
  req_min_length (request_of (strip sec)) =
    Z.max 10 (3 * clamp 13 150 (word_count / 2) / 5).
Proof.
  intros word_count Hwc Hlen.
  pose proof (split_length (strip sec)) as Hw; fold word_count in Hw.
  assert (T : slice_to 1000 (strip sec) = strip sec)
    by (apply firstn_all2; unfold len in Hlen; lia).
  assert (B : 1000 < 2 ^ 1023)
    by (apply Z.lt_le_trans with (2 ^ 10);
        [reflexivity | apply Z.pow_le_mono_r; lia]).
  assert (M : max_len_of word_count = clamp 13 150 (word_count / 2))
    by (apply max_len_of_eq; lia).
  pose proof (max_min_len_range word_count) as (R1 & R2 & R3).
  assert (D : word_count / 2 <= word_count)
    by (apply Z.div_le_upper_bound; lia).
  unfold request_of; cbn [req_text req_max_length req_min_length].
  rewrite T; fold word_count.
  assert (A : adjusted_max_of (max_len_of word_count) (strip sec)
              = max_len_of word_count).
  { unfold adjusted_max_of; fold word_count.
    rewrite M in *; unfold clamp in *; lia. }
  rewrite A.
  repeat split; [exact M|].
  rewrite <- M, <- (min_len_of_eq _ R1).
  unfold adjusted_min_of.
  replace (max_len_of word_count >? 1) with true
    by (symmetry; apply Z.gtb_lt; lia).
  lia.
Qed.

Lemma untruncated_section_request_witness :
  len (PyStr.split (strip cache_section_2)) > 20 /\
  len (strip cache_section_2) <= 1000 /\
  req_text (request_of (strip cache_section_2)) = strip cache_section_2 /\
  req_max_length (request_of (strip cache_section_2)) =
    clamp 13 150 (len (PyStr.split (strip cache_section_2)) / 2) /\
  req_min_length (request_of (strip cache_section_2)) =
    Z.max 10
      (3 * clamp 13 150 (len (PyStr.split (strip cache_section_2)) / 2) / 5).
Proof.
  assert (H1 : len (PyStr.split (strip cache_section_2)) > 20)
    by (vm_compute; reflexivity).
  assert (H2 : len (strip cache_section_2) <= 1000)
    by (vm_compute; discriminate).
  split; [exact H1|]; split; [exact H2|].
  exact (untruncated_section_request cache_section_2 H1 H2).
Defined.

(** Every text handed to the capability has at most 1000 code points
    and begins with a code point that is not whitespace. *)
Theorem request_text_shape
    (summarizer : request -> outcome pystr) (text : pystr)
    (i : nat) (rq : request) :
  In (i, rq) (invocations (run_sections summarizer text)) ->
  (List.length (req_text rq) <= 1000)%nat /\
  exists c rest, req_text rq = c :: rest /\ is_space c = false.
Proof.
  rewrite run_sections_invocations; intros H.
  apply section_requests_in in H.
  destruct H as (_ & sec & _ & Hwc & ->).
  unfold request_of; cbn [req_text]; unfold slice_to; split.
  - apply firstn_le_length.
  - pose proof (strip_head sec) as Hh.
    destruct (strip sec) as [|c rest]; [unfold len in Hwc; simpl in Hwc; lia|].
    exists c, (firstn 999 rest); split; [reflexivity | exact Hh].
Qed.

Lemma request_text_shape_witness :
  In (1%nat, request_of (strip cache_section_2))
     (invocations (run_sections steady cache_notes)) /\
  (List.length (req_text (request_of (strip cache_section_2))) <= 1000)%nat /\
  exists c rest,
    req_text (request_of (strip cache_section_2)) = c :: rest /\
    is_space c = false.
Proof.
  assert (H : In (1%nat, request_of (strip cache_section_2))
                 (invocations (run_sections steady cache_notes))).
  { rewrite run_sections_invocations, cache_notes_sections.
    right; left; reflexivity. }
  split; [exact H|].
  exact (request_text_shape steady cache_notes 1 _ H).
Defined.

(** ** Counting sections *)

Lemma split_scan_length (s : pystr) : forall cur,
  List.length (split_scan section_pattern O cur s) =
  S (List.length (filter heading_ahead (after_newlines s))).
Proof.
  induction s as [|c s IH]; intros cur; [reflexivity|].
  rewrite split_scan_step; cbn [after_newlines].
  rewrite filter_app.
  destruct (c =? newline)%N; cbn [andb filter app].
  - destruct (heading_ahead s); simpl; rewrite IH; reflexivity.
  - apply IH.
Qed.

(** The text is cut once for every newline that a heading follows, and
    nowhere else: there is one section more than such newlines, so at
    least one. *)
Theorem section_count (text : pystr) :
  List.length (split_sections text) =
  S (List.length (filter heading_ahead (after_newlines text))).
Proof. apply split_scan_length. Qed.

(** ** Sections are not cut again *)

(** A text that begins with a heading still does when it is extended. *)
Lemma heading_line_app (s t : pystr) :
  heading_line s -> heading_line (s ++ t).
Proof.
  intros [ds w rest Hds Hw | ws ds rest Hws Hds | ws ds rest Hws Hds].
  - rewrite <- app_assoc; simpl.
    apply heading_numbered; assumption.
  - rewrite <- !app_assoc.
    apply (heading_chapter ws ds (rest ++ t)); assumption.
  - rewrite <- !app_assoc.
    apply (heading_section ws ds (rest ++ t)); assumption.
Qed.

Lemma heading_ahead_prefix (s t : pystr) :
  heading_ahead (s ++ t) = false -> heading_ahead s = false.
Proof.
  intros H; destruct (heading_ahead s) eqn:E; [|reflexivity].
  apply heading_ahead_line in E.
  apply (heading_line_app s t), heading_line_ahead in E; congruence.
Qed.

Lemma app_tail_newline (l : pystr) (c : char) (before rest : pystr) :
  l ++ [c] = before ++ newline :: rest ->
  (rest = [] /\ c = newline /\ before = l) \/
  exists rest', rest = rest' ++ [c] /\ l = before ++ newline :: rest'.
Proof.
  intros E.
  induction rest as [|x rest' _] using rev_ind.
  - left.
    apply app_inj_tail in E; destruct E as [-> ->]; auto.
  - right; exists rest'.
    change (before ++ newline :: rest' ++ [x])
      with (before ++ (newline :: rest') ++ [x]) in E.
    rewrite app_assoc in E.
    apply app_inj_tail in E; destruct E as [-> ->]; auto.
Qed.

(** No piece has a newline that a heading follows inside the piece. *)
Lemma split_scan_pieces (s : pystr) : forall cur sec,
  (forall before rest, rev cur = before ++ newline :: rest ->
                       heading_ahead (rest ++ s) = false) ->
  In sec (split_scan section_pattern O cur s) ->
  forall before rest, sec = before ++ newline :: rest ->
                      heading_ahead rest = false.
Proof.
  induction s as [|c s IH]; intros cur sec Hcur Hin before rest E.
  - destruct Hin as [<-|[]].
    rewrite <- (app_nil_r rest); apply (Hcur before); exact E.
  - rewrite split_scan_step in Hin.
    destruct ((c =? newline)%N && heading_ahead s) eqn:G.
    + destruct Hin as [<-|Hin].
      * apply (heading_ahead_prefix rest (c :: s)), (Hcur before); exact E.
      * refine (IH [] sec _ Hin before rest E).
        intros b r Eb; destruct b; discriminate.
    + refine (IH (c :: cur) sec _ Hin before rest E).
      intros b r Eb; simpl in Eb.
      apply app_tail_newline in Eb.
      destruct Eb as [(-> & -> & _)|(r' & -> & Eb)].
      * rewrite N.eqb_refl in G; exact G.
      * rewrite <- app_assoc; apply (Hcur b); exact Eb.
Qed.

(** Splitting a section again returns it whole. *)
Theorem sections_are_not_cut_again (text sec : pystr) :
  In sec (split_sections text) -> split_sections sec = [sec].
Proof.
  intros H.
  apply (split_scan_no_heading sec []).
  intros before rest E.
  refine (split_scan_pieces text [] sec _ H before rest E).
  intros b r Eb; destruct b; discriminate.
Qed.

Lemma sections_are_not_cut_again_witness :
  In cache_section_2 (split_sections cache_notes) /\
  split_sections cache_section_2 = [cache_section_2].
Proof.
  assert (H : In cache_section_2 (split_sections cache_notes))
    by (rewrite cache_notes_sections; right; left; reflexivity).
  split; [exact H | exact (sections_are_not_cut_again _ _ H)].
Defined.

(** ** Calls made by a run *)

Lemma section_requests_sorted (sections : list pystr) : forall i,
  StronglySorted lt (map fst (section_requests i sections)) /\
  Forall (fun j => (i <= j)%nat) (map fst (section_requests i sections)).
Proof.
  induction sections as [|sec rest IH]; intros i; simpl.
  - split; constructor.
  - destruct (IH (S i)) as [Hs Hf].
    assert (Hf' : Forall (fun j => (i < j)%nat)
                         (map fst (section_requests (S i) rest)))
      by (eapply Forall_impl; [|exact Hf]; simpl; intros; lia).
    destruct (len (PyStr.split (strip sec)) >? 20); simpl.
    + split; constructor; auto.
      eapply Forall_impl; [|exact Hf']; simpl; intros; lia.
    + split; [exact Hs|].
      eapply Forall_impl; [|exact Hf']; simpl; intros; lia.
Qed.

Lemma section_requests_length (sections : list pystr) : forall i,
  List.length (section_requests i sections) =
  List.length
    (filter (fun sec => len (PyStr.split (strip sec)) >? 20) sections).
Proof.
  induction sections as [|sec rest IH]; intros i; simpl; [reflexivity|].
  rewrite length_app, IH.
  destruct (len (PyStr.split (strip sec)) >? 20); reflexivity.
Qed.

(** The capability is called in document order and at most once for a
    section: the indices of the calls increase strictly.  A call is
    made for section i exactly when section i has more than twenty
    words, and it carries the request built from that section; so there
    are as many calls as such sections, and a failed call is not
    repeated. *)
Theorem calls_in_document_order
    (summarizer : request -> outcome pystr) (text : pystr) :
  StronglySorted lt (map fst (invocations (run_sections summarizer text))) /\
  (forall i rq,
     In (i, rq) (invocations (run_sections summarizer text)) <->
     exists sec,
       nth_error (split_sections text) i = Some sec /\
       len (PyStr.split (strip sec)) > 20 /\
       rq = request_of (strip sec)) /\
  List.length (invocations (run_sections summarizer text)) =
  List.length
    (filter (fun sec => len (PyStr.split (strip sec)) >? 20)
            (split_sections text)).
Proof.
  rewrite run_sections_invocations; split; [|split].
  - apply section_requests_sorted.
  - intros i rq; split.
    + intros H; apply section_requests_in in H.
      destruct H as (_ & sec & Hn & Hw & Hr).
      rewrite Nat.sub_0_r in Hn; exists sec; auto.
    + intros (sec & Hn & Hw & ->).
      apply (section_requests_made _ 0 i sec Hn Hw).
  - apply section_requests_length.
Qed.

Lemma dict_get_labels_some (vals : list pystr) : forall n key v,
  dict_get (combine (map label (seq n (List.length vals))) vals) key = Some v ->
  exists i, key = label (n + i) /\ nth_error vals i = Some v.
Proof.
  induction vals as [|v0 vals IH]; intros n key v;
    cbn [List.length seq map combine dict_get]; [discriminate|].
  destruct (PyStr.eqb (label n) key) eqn:E.
  - intros H; injection H as <-.
    apply eqb_eq in E; exists 0%nat; rewrite Nat.add_0_r; auto.
  - intros H; destruct (IH _ _ _ H) as (i & -> & Hi).
    exists (S i); split; [f_equal; lia | exact Hi].
Qed.

(** Looking a key up in the result: a value is found exactly under the
    labels of the sections of the text, and it is the value recorded for
    that section; any other key is missing. *)
Theorem summaries_lookup
    (summarizer : request -> outcome pystr) (text key v : pystr) :
  dict_get (summarize_by_sections summarizer text) key = Some v <->
  exists i sec,
    key = label i /\ nth_error (split_sections text) i = Some sec /\
    v = recorded summarizer sec.
Proof.
  split.
  - rewrite summarize_by_sections_eq.
    rewrite <- (length_map (recorded summarizer) (split_sections text)).
    intros H; apply dict_get_labels_some in H.
    destruct H as (i & -> & Hi).
    rewrite nth_error_map in Hi.
    destruct (nth_error (split_sections text) i) as [sec|] eqn:E;
      [|discriminate].
    injection Hi as <-; exists i, sec; auto.
  - intros (i & sec & -> & Hi & ->).
    rewrite summarize_by_sections_get, Hi; reflexivity.
Qed.

(** ** The extractors *)

Lemma fold_pages (pages : list (option pystr)) : forall acc,
  fold_left
    (fun text page_text =>
       match page_text with
       | Some t => if truthy t then text ++ t else text
       | None => text
       end)
    pages acc =
  acc ++ List.concat (map (fun page_text =>
                             match page_text with
                             | Some t => t
                             | None => []
                             end) pages).
Proof.
  induction pages as [|p pages IH]; intros acc; simpl.
  - rewrite app_nil_r; reflexivity.
  - rewrite IH; destruct p as [[|c t]|]; simpl;
      rewrite <- ?app_assoc; reflexivity.
Qed.

(** The text of a PDF is the texts of its pages one after the other,
    with nothing between two pages; a page without text adds nothing. *)
Theorem pdf_text_is_concatenation (pages : list (option pystr)) :
  extract_text_from_pdf pages =
  List.concat (map (fun page_text =>
                      match page_text with
                      | Some t => t
                      | None => []
                      end) pages).
Proof. unfold extract_text_from_pdf; apply fold_pages. Qed.

Lemma split_at_char (c : char) (p : pystr) : forall cur,
  ~ In c p ->
  split_at [c] O cur p = [rev cur ++ p] /\
  forall rest,
    split_at [c] O cur (p ++ c :: rest) =
    (rev cur ++ p) :: split_at [c] O [] rest.
Proof.
  induction p as [|a p IH]; intros cur Hc.
  - split; [simpl; rewrite app_nil_r; reflexivity|].
    intros rest; rewrite app_nil_r.
    apply (split_at_match [c] cur rest); discriminate.
  - assert (Ha : a <> c) by (intros ->; apply Hc; left; reflexivity).
    assert (Hp : ~ In c p) by (intros H; apply Hc; right; exact H).
    assert (N : forall s, startswith [c] (a :: s) = false).
    { intros s; simpl.
      destruct (N.eqb_spec c a); [congruence | reflexivity]. }
    destruct (IH (a :: cur) Hp) as [E1 E2].
    split; [|intros rest; change ((a :: p) ++ c :: rest)
                            with (a :: (p ++ c :: rest))];
      rewrite split_at_no_match by apply N.
    + rewrite E1; simpl; rewrite <- app_assoc; reflexivity.
    + rewrite E2; simpl; rewrite <- app_assoc; reflexivity.
Qed.

Lemma split_join_char (c : char) (parts : list pystr) :
  parts <> [] -> Forall (fun p => ~ In c p) parts ->
  split_sep [c] (join [c] parts) = parts.
Proof.
  unfold split_sep.
  induction parts as [|p ps IH]; [congruence | intros _ H].
  inversion H as [|? ? Hp Hps]; subst.
  destruct ps as [|q ps].
  - apply (split_at_char c p [] Hp).
  - rewrite join_cons by discriminate.
    change ([c] ++ join [c] (q :: ps)) with (c :: join [c] (q :: ps)).
    destruct (split_at_char c p [] Hp) as [_ E]; rewrite E.
    rewrite IH by (auto; discriminate); reflexivity.
Qed.

(** The paragraphs of a DOCX document can be read back from its text:
    when there is a paragraph and no paragraph holds a newline, cutting
    the text at its newlines gives the paragraphs, empty ones included. *)
Theorem docx_paragraphs_recovered (paragraphs : list pystr) :
  paragraphs <> [] ->
  Forall (fun p => ~ In newline p) paragraphs ->
  split_sep [newline] (extract_text_from_docx paragraphs) = paragraphs.
Proof. apply split_join_char. Qed.

(** Of a web page exactly the paragraphs with a code point that is not
    whitespace are kept, in order, one per line. *)
Theorem url_text_keeps_visible_paragraphs
    (fetch_paragraphs : pystr -> outcome (list pystr))
    (url : pystr) (paragraphs : list pystr) :
  fetch_paragraphs url = Returned paragraphs ->
  extract_text_from_url fetch_paragraphs url =
  join [newline]
       (filter (fun p => existsb (fun c => negb (is_space c)) p) paragraphs).
Proof.
  intros H; unfold extract_text_from_url; rewrite H.
  f_equal; apply filter_ext; intros p; apply truthy_strip.
Qed.

(** ** Witnesses for the extractors *)

Lemma docx_paragraphs_recovered_witness :
  split_sep [newline] (extract_text_from_docx memo_paragraphs)
  = memo_paragraphs.
Proof.
  apply (docx_paragraphs_recovered memo_paragraphs).
  - discriminate.
  - repeat constructor; vm_compute; intuition discriminate.
Defined.

Lemma url_text_keeps_visible_paragraphs_witness :
  extract_text_from_url blog_page (of_string "https://example.org/caches") =
  join [newline]
       (filter (fun p => existsb (fun c => negb (is_space c)) p)
               [of_string "Caches are small."; of_string "   ";
                of_string "Memory is large."]).
Proof.
  apply (url_text_keeps_visible_paragraphs blog_page); reflexivity.
Defined.

(** ** The page script *)

Section ScriptFacts.

Variable summarizer : request -> outcome pystr.
Variable qa_pipeline : pystr -> pystr -> outcome pystr.
Variable get_transcript : pystr -> outcome (list fragment).
Variable fetch_paragraphs : pystr -> outcome (list pystr).

Abbreviation load := (load_inputs get_transcript fetch_paragraphs).
Abbreviation run := (script summarizer qa_pipeline get_transcript fetch_paragraphs).

Ltac unfold_steps :=
  cbv [script load_inputs unless_stopped tab_pdf tab_docx tab_youtube
       tab_website view_text summarize_button ask_a_doubt set_text stop_with
       write stopped session page text_loaded summarizer_calls qa_calls
       uploaded_pdf uploaded_docx youtube_link website_url summarize_clicked
       question answer_clicked truthy].

Ltac case_inputs w :=
  destruct w as [[[?pages|?e]|] [[?paragraphs|?e]|] [|? ?] [|? ?] ? ? ?];
  unfold_steps.

(** The tabs leave the session and the call logs alone. *)
Lemma load_inputs_frame (w : widgets) (before : option pystr) :
  session (load w before) = before /\
  summarizer_calls (load w before) = [] /\
  qa_calls (load w before) = [].
Proof. case_inputs w; repeat split. Qed.

Lemma load_inputs_text (w : widgets) (before : option pystr) :
  stopped (load w before) = None ->
  text_loaded (load w before) =
  if truthy (website_url w)
  then extract_text_from_url fetch_paragraphs (website_url w)
  else if truthy (youtube_link w)
  then get_youtube_transcript get_transcript (youtube_link w)
  else match uploaded_docx w with
       | Some (Returned paragraphs) => extract_text_from_docx paragraphs
       | _ => match uploaded_pdf w with
              | Some (Returned pages) => extract_text_from_pdf pages
              | _ => []
              end
       end.
Proof. case_inputs w; try discriminate; reflexivity. Qed.

Lemma load_inputs_stopped (w : widgets) (before : option pystr) (e : pystr) :
  stopped (load w before) = Some e ->
  uploaded_pdf w = Some (Raised e) \/ uploaded_docx w = Some (Raised e).
Proof.
  case_inputs w; try discriminate; intros H; injection H as ->; auto.
Qed.

Lemma load_inputs_youtube_message (w : widgets) (before : option pystr) :
  stopped (load w before) = None ->
  truthy (youtube_link w) = true ->
  In (st_success (check_mark ++ of_string " YouTube transcript extracted!"))
     (page (load w before)).
Proof.
  case_inputs w; try discriminate; intros _ _;
    rewrite ?in_app_iff; simpl; tauto.
Qed.

(** The rest of the script, from the state the tabs leave, case by
    case. *)
Ltac after_load w before :=
  unfold script, summarize_button, ask_a_doubt;
  pose proof (load_inputs_frame w before) as (Fs & Fc & Fq);
  destruct (load w before) as [t s sess pg sc qc];
  cbn [session summarizer_calls qa_calls] in Fs, Fc, Fq; subst sess sc qc;
  destruct s as [?|]; destruct t as [|? ?];
  destruct (summarize_clicked w); destruct before as [?|];
  destruct (answer_clicked w); destruct (question w) as [|? ?];
  cbv [unless_stopped view_text summarize_button ask_a_doubt write
       stopped session page text_loaded summarizer_calls qa_calls truthy].

Lemma script_keeps_text (w : widgets) (before : option pystr) :
  text_loaded (run w before) = text_loaded (load w before) /\
  stopped (run w before) = stopped (load w before).
Proof. after_load w before; split; reflexivity. Qed.

Lemma script_text_source (w : widgets) (before : option pystr) :
  stopped (run w before) = None ->
  text_loaded (run w before) =
  if truthy (website_url w)
  then extract_text_from_url fetch_paragraphs (website_url w)
  else if truthy (youtube_link w)
  then get_youtube_transcript get_transcript (youtube_link w)
  else match uploaded_docx w with
       | Some (Returned paragraphs) => extract_text_from_docx paragraphs
       | _ => match uploaded_pdf w with
              | Some (Returned pages) => extract_text_from_pdf pages
              | _ => []
              end
       end.
Proof.
  destruct (script_keeps_text w before) as [-> ->].
  apply load_inputs_text.
Qed.

(** The text comes from the last tab that has an input. *)
Theorem text_from_last_input (w : widgets) (before : option pystr) :
  stopped (run w before) = None ->
  text_loaded (run w before) =
  if truthy (website_url w)
  then extract_text_from_url fetch_paragraphs (website_url w)
  else if truthy (youtube_link w)
  then get_youtube_transcript get_transcript (youtube_link w)
  else match uploaded_docx w with
       | Some (Returned paragraphs) => extract_text_from_docx paragraphs
       | _ => match uploaded_pdf w with
              | Some (Returned pages) => extract_text_from_pdf pages
              | _ => []
              end
       end.
Proof. apply script_text_source. Qed.

(** An uploaded PDF that cannot be read, or an uploaded DOCX that
    cannot be read after a PDF tab that raised nothing, stops the run
    with the exception of the reader: whatever the other widgets hold,
    no model is called and the session summary stays as it was. *)
Theorem failed_upload_stops_run
    (w : widgets) (before : option pystr) (e : pystr) :
  uploaded_pdf w = Some (Raised e) \/
  ((forall e', uploaded_pdf w <> Some (Raised e')) /\
   uploaded_docx w = Some (Raised e)) ->
  stopped (run w before) = Some e /\
  session (run w before) = before /\
  summarizer_calls (run w before) = [] /\
  qa_calls (run w before) = [].
Proof.
  intros H.
  destruct w as [[[pages|e0]|] [[paragraphs|e1]|] yt web sc q ac];
    cbn [uploaded_pdf uploaded_docx] in H;
    destruct H as [H|[N H]]; try discriminate;
    try (exfalso; apply (N e0); reflexivity);
    injection H as ->; unfold_steps; repeat split.
Qed.

Lemma script_nothing_summarized (w : widgets) (before : option pystr) :
  stopped (run w before) = None ->
  text_loaded (run w before) = [] ->
  summarize_clicked w = true ->
  In (st_error (of_string "Please upload or paste something first!"))
     (page (run w before)) /\
  summarizer_calls (run w before) = [] /\
  session (run w before) = before.
Proof.
  after_load w before; intros H1 H2 H3; try discriminate;
    repeat split; rewrite ?in_app_iff; simpl; tauto.
Qed.

(** Summarize with no text: an error is shown, no model is called and
    the session summary stays as it was. *)
Theorem nothing_to_summarize (w : widgets) (before : option pystr) :
  stopped (run w before) = None ->
  text_loaded (run w before) = [] ->
  summarize_clicked w = true ->
  In (st_error (of_string "Please upload or paste something first!"))
     (page (run w before)) /\
  summarizer_calls (run w before) = [] /\
  session (run w before) = before.
Proof. apply script_nothing_summarized. Qed.

Lemma script_summary_replaced (w : widgets) (before : option pystr) :
  stopped (run w before) = None ->
  text_loaded (run w before) <> [] ->
  summarize_clicked w = true ->
  session (run w before) =
    Some (session_summary summarizer (text_loaded (run w before))) /\
  summarizer_calls (run w before) =
    invocations (run_sections summarizer (text_loaded (run w before))).
Proof.
  after_load w before; intros H1 H2 H3; try discriminate;
    try congruence; split; reflexivity.
Qed.

(** Summarize with a text: the session summary is replaced by the
    values recorded for the sections of the text joined by single
    spaces, whatever it held, and the calls made are those of that one
    run over the sections. *)
Theorem summary_replaces_session (w : widgets) (before : option pystr) :
  stopped (run w before) = None ->
  text_loaded (run w before) <> [] ->
  summarize_clicked w = true ->
  session (run w before) =
    Some (session_summary summarizer (text_loaded (run w before))) /\
  summarizer_calls (run w before) =
    invocations (run_sections summarizer (text_loaded (run w before))).
Proof. apply script_summary_replaced. Qed.

(** The question-answering model is called at most once in a run, only
    after a click with a question that is not empty, and always with
    the session summary as context. *)
Theorem answers_use_session_summary
    (w : widgets) (before : option pystr) (q c : pystr) :
  In (q, c) (qa_calls (run w before)) ->
  qa_calls (run w before) = [(q, c)] /\
  session (run w before) = Some c /\
  q = question w /\ q <> [] /\ answer_clicked w = true.
Proof.
  after_load w before; cbn [app]; intros H; try contradiction;
    destruct H as [H|[]]; injection H as <- <-;
    repeat split; discriminate.
Qed.

(** With no summary in the session and no click on Summarize, nothing
    is asked of the question-answering model and the session still has
    no summary. *)
Theorem no_answer_without_summary (w : widgets) :
  summarize_clicked w = false ->
  qa_calls (run w None) = [] /\ session (run w None) = None.
Proof.
  after_load w (@None pystr); intros H; try discriminate;
    split; reflexivity.
Qed.

(** A transcript that cannot be fetched is summarized like a text: the
    page reports the extraction as done, and the session summary is
    made from the error message. *)
Theorem failed_transcript_is_summarized
    (w : widgets) (before : option pystr) (e : pystr) :
  stopped (run w before) = None ->
  website_url w = [] ->
  youtube_link w <> [] ->
  get_transcript (video_id_of (youtube_link w)) = Raised e ->
  summarize_clicked w = true ->
  In (st_success (check_mark ++ of_string " YouTube transcript extracted!"))
     (page (run w before)) /\
  session (run w before) =
    Some (session_summary summarizer
            (of_string "Error retrieving transcript: " ++ e)).
Proof.
  intros Hs Hw Hy Hg Hc.
  assert (Hy' : truthy (youtube_link w) = true)
    by (destruct (youtube_link w); [congruence | reflexivity]).
  assert (T : text_loaded (run w before) =
              of_string "Error retrieving transcript: " ++ e).
  { rewrite (script_text_source w before Hs), Hw, Hy'; simpl.
    unfold get_youtube_transcript; rewrite Hg; reflexivity. }
  split.
  - assert (P : In (st_success (check_mark
                      ++ of_string " YouTube transcript extracted!"))
                   (page (load w before))).
    { apply load_inputs_youtube_message; [|exact Hy'].
      destruct (script_keeps_text w before) as [_ <-]; exact Hs. }
    revert P; clear; after_load w before; intros P;
      rewrite ?in_app_iff; auto.
  - destruct (script_summary_replaced w before Hs) as [E _];
      [rewrite T; discriminate | exact Hc |].
    rewrite E, T; reflexivity.
Qed.

(** A page without a visible paragraph counts as no input: Summarize
    shows the error, calls no model and leaves the session summary as it
    was. *)
Theorem blank_page_is_no_input
    (w : widgets) (before : option pystr) (paragraphs : list pystr) :
  stopped (run w before) = None ->
  website_url w <> [] ->
  fetch_paragraphs (website_url w) = Returned paragraphs ->
  Forall (fun p => forallb is_space p = true) paragraphs ->
  summarize_clicked w = true ->
  In (st_error (of_string "Please upload or paste something first!"))
     (page (run w before)) /\
  summarizer_calls (run w before) = [] /\
  session (run w before) = before.
Proof.
  intros Hs Hw Hf Hb Hc.
  apply script_nothing_summarized; [exact Hs | | exact Hc].
  rewrite (script_text_source w before Hs).
  replace (truthy (website_url w)) with true
    by (destruct (website_url w); [congruence | reflexivity]).
  unfold extract_text_from_url; rewrite Hf.
  replace (filter (fun p => truthy (strip p)) paragraphs) with (@nil pystr);
    [reflexivity|].
  symmetry; clear Hf; induction Hb as [|p ps Hp _ IH]; [reflexivity|].
  simpl; rewrite truthy_strip.
  replace (existsb (fun c => negb (is_space c)) p) with false; [exact IH|].
  symmetry; clear - Hp; induction p as [|c p IHp]; [reflexivity|].
  simpl in *; apply andb_true_iff in Hp; destruct Hp as [-> Hp].
  simpl; apply IHp; exact Hp.
Qed.

End ScriptFacts.

(** The preview shows the whole text up to 1500 code points, and never
    more than 1503. *)
Theorem preview_bounded (text : pystr) :
  (List.length (preview text) <= 1503)%nat /\
  ((List.length text <= 1500)%nat -> preview text = text) /\
  firstn 1500 (preview text) = firstn 1500 text.
Proof.
  unfold preview, len, slice_to.
  destruct (Z.of_nat (List.length text) >? 1500) eqn:G.
  - apply Z.gtb_lt in G.
    assert (L : List.length (firstn 1500 text) = 1500%nat)
      by (rewrite length_firstn; lia).
    repeat split.
    + rewrite length_app, L; simpl; lia.
    + intros; lia.
    + rewrite firstn_app, L, Nat.sub_diag, firstn_O, app_nil_r.
      rewrite firstn_firstn, Nat.min_id; reflexivity.
  - rewrite Z.gtb_ltb in G; apply Z.ltb_ge in G.
    repeat split; auto; lia.
Qed.

(** ** Runs of the script on the sample inputs *)

Lemma text_from_last_input_witness :
  text_loaded (script steady short_answer no_captions blog_page
                      article_click None) =
  extract_text_from_url blog_page (of_string "https://example.org/caches").
Proof.
  apply (text_from_last_input steady short_answer no_captions blog_page
                              article_click None).
  vm_compute; reflexivity.
Defined.

Lemma failed_upload_stops_run_witness :
  stopped (script steady short_answer no_captions blog_page broken_upload
                  (Some (of_string "An earlier summary.")))
    = Some (of_string "No /Root object!") /\
  session (script steady short_answer no_captions blog_page broken_upload
                  (Some (of_string "An earlier summary.")))
    = Some (of_string "An earlier summary.") /\
  summarizer_calls (script steady short_answer no_captions blog_page
                           broken_upload
                           (Some (of_string "An earlier summary."))) = [] /\
  qa_calls (script steady short_answer no_captions blog_page broken_upload
                   (Some (of_string "An earlier summary."))) = [].
Proof.
  apply (failed_upload_stops_run steady short_answer no_captions blog_page
                                 broken_upload).
  left; reflexivity.
Defined.

Lemma nothing_to_summarize_witness :
  In (st_error (of_string "Please upload or paste something first!"))
     (page (script steady short_answer no_captions blog_page idle_click
                   None)) /\
  summarizer_calls (script steady short_answer no_captions blog_page
                           idle_click None) = [] /\
  session (script steady short_answer no_captions blog_page idle_click None)
    = None.
Proof.
  apply (nothing_to_summarize steady short_answer no_captions blog_page
                              idle_click None).
  - vm_compute; reflexivity.
  - vm_compute; reflexivity.
  - reflexivity.
Defined.

Lemma summary_replaces_session_witness :
  session (script steady short_answer no_captions blog_page article_click
                  (Some (of_string "An earlier summary."))) =
    Some (session_summary steady
            (text_loaded
               (script steady short_answer no_captions blog_page
                       article_click
                       (Some (of_string "An earlier summary."))))) /\
  summarizer_calls (script steady short_answer no_captions blog_page
                           article_click
                           (Some (of_string "An earlier summary."))) =
    invocations
      (run_sections steady
         (text_loaded
            (script steady short_answer no_captions blog_page article_click
                    (Some (of_string "An earlier summary."))))).
Proof.
  apply (summary_replaces_session steady short_answer no_captions blog_page
                                  article_click).
  - vm_compute; reflexivity.
  - vm_compute; discriminate.
  - reflexivity.
Defined.

Lemma answers_use_session_summary_witness :
  qa_calls (script steady short_answer no_captions blog_page question_click
                   (Some (of_string "Caches are small."))) =
    [(of_string "What is small?", of_string "Caches are small.")] /\
  session (script steady short_answer no_captions blog_page question_click
                  (Some (of_string "Caches are small."))) =
    Some (of_string "Caches are small.") /\
  of_string "What is small?" = question question_click /\
  of_string "What is small?" <> [] /\
  answer_clicked question_click = true.
Proof.
  apply (answers_use_session_summary steady short_answer no_captions
                                     blog_page question_click).
  vm_compute; left; reflexivity.
Defined.

Lemma no_answer_without_summary_witness :
  qa_calls (script steady short_answer no_captions blog_page question_click
                   None) = [] /\
  session (script steady short_answer no_captions blog_page question_click
                  None) = None.
Proof.
  apply (no_answer_without_summary steady short_answer no_captions blog_page
                                   question_click).
  reflexivity.
Defined.

Lemma failed_transcript_is_summarized_witness :
  In (st_success (check_mark ++ of_string " YouTube transcript extracted!"))
     (page (script steady short_answer no_captions blog_page video_click
                   None)) /\
  session (script steady short_answer no_captions blog_page video_click None)
  = Some (session_summary steady
            (of_string "Error retrieving transcript: "
             ++ of_string "Subtitles are disabled for this video")).
Proof.
  apply (failed_transcript_is_summarized steady short_answer no_captions
                                         blog_page video_click None).
  - vm_compute; reflexivity.
  - reflexivity.
  - vm_compute; discriminate.
  - reflexivity.
  - reflexivity.
Defined.

Lemma blank_page_is_no_input_witness :
  In (st_error (of_string "Please upload or paste something first!"))
     (page (script steady short_answer no_captions blank_page article_click
                   None)) /\
  summarizer_calls (script steady short_answer no_captions blank_page
                           article_click None) = [] /\
  session (script steady short_answer no_captions blank_page article_click
                  None) = None.
Proof.
  apply (blank_page_is_no_input steady short_answer no_captions blank_page
                                article_click None
                                [of_string "   "; []]).
  - vm_compute; reflexivity.
  - vm_compute; discriminate.
  - reflexivity.
  - repeat constructor.
  - reflexivity.
Defined.

(** ** The lookahead of the section pattern *)

(** The lookahead succeeds on a text exactly when the text begins with
    one or more digits, a period and a whitespace, or with the word
    Chapter or Section, one or more whitespaces and a digit. *)
Theorem lookahead_accepts_headings (s : pystr) :
  heading_ahead s = true <-> heading_line s.
Proof. split; [apply heading_ahead_line | apply heading_line_ahead]. Qed.
